(** * Verification of the DICOM text-burning utility and the viewer scripts

    Shallow embedding of [burn_text_to_dicom.py], [find_small_scan.py],
    [test_console_logs.py] and [test_viewer_headless.py].

    - numpy integer arrays are lists of [Z] tagged with a dtype, with the
      dtype's wrap-around written out;
    - float64 values are rationals produced by a rounding operator, plus NaN
      and the infinities;
    - the file system is a finite map from paths to entries;
    - the scripts that talk to a server or a browser are programs in a small
      monad over an event trace, the outside world being an oracle. *)

From Stdlib Require Import ZArith QArith Qround Lia Lqa Ascii String.
From stdpp Require Import gmap strings list.

Local Open Scope Z_scope.

(** ** numpy integer dtypes *)

Inductive dtype := UInt8 | Int8 | UInt16 | Int16 | UInt32 | Int32.

Definition bits (t : dtype) : Z :=
  match t with
  | UInt8 | Int8 => 8
  | UInt16 | Int16 => 16
  | UInt32 | Int32 => 32
  end.

Definition is_signed (t : dtype) : bool :=
  match t with
  | Int8 | Int16 | Int32 => true
  | _ => false
  end.

Definition lo (t : dtype) : Z := if is_signed t then - 2 ^ (bits t - 1) else 0.
Definition hi (t : dtype) : Z := if is_signed t then 2 ^ (bits t - 1) - 1 else 2 ^ bits t - 1.

(** Result of an integer operation carried out in dtype [t]: numpy wraps
    modulo [2 ^ bits t] into the dtype's range. *)
Definition wrap (t : dtype) (x : Z) : Z := (x - lo t) mod 2 ^ bits t + lo t.

Definition in_dtype (t : dtype) (x : Z) : Prop := lo t <= x <= hi t.

(** [ndarray]: dtype, shape and the samples in row-major order. *)
Record ndarray := mk_ndarray {
  nd_dtype : dtype;
  nd_shape : list nat;
  nd_data : list Z
}.

Definition well_formed (a : ndarray) : Prop :=
  length (nd_data a) = foldr Nat.mul 1%nat (nd_shape a) /\
  Forall (in_dtype (nd_dtype a)) (nd_data a).

(** [ndarray.max()] and [ndarray.min()]; numpy raises ValueError on an
    array without elements. *)
Definition arr_max (l : list Z) : option Z :=
  match l with
  | [] => None
  | x :: r => Some (foldr Z.max x r)
  end.

Definition arr_min (l : list Z) : option Z :=
  match l with
  | [] => None
  | x :: r => Some (foldr Z.min x r)
  end.

(** ** float64 *)

Inductive float64 :=
| FNaN
| FInf (negative : bool)
| FFin (q : Q).

Section Normalize.

(** Rounding of an exact result to a float64. *)
Variable rnd : Q -> Q.

(** Value the platform's C cast yields where C leaves the conversion
    undefined (NaN, or a value outside the target range). *)
Variable undefined_cast : float64 -> Z.

(** [x / d] of an integer array by an integer scalar: true division in
    float64; division by zero yields nan or inf, not an exception. *)
Definition true_divide (x d : Z) : float64 :=
  if d =? 0 then (if x =? 0 then FNaN else FInf (x <? 0))
  else FFin (rnd (inject_Z x / inject_Z d)).

(** [f * 255] in float64. *)
Definition fmul_int (f : float64) (k : Z) : float64 :=
  match f with
  | FNaN => FNaN
  | FInf s => FInf s
  | FFin q => FFin (rnd (q * inject_Z k))
  end.

Definition Qtrunc (q : Q) : Z := if Qle_bool 0 q then Qfloor q else Qceiling q.

Definition Qlt_bool (x y : Q) : bool := negb (Qle_bool y x).

Definition castable_uint8 (q : Q) : bool :=
  Qlt_bool (-1) q && Qlt_bool q 256.

(** [.astype(np.uint8)] of a float64: truncation toward zero where the value
    fits, platform-defined otherwise. *)
Definition float_astype_uint8 (f : float64) : Z :=
  match f with
  | FFin q => if castable_uint8 q then Qtrunc q else undefined_cast f mod 256
  | _ => undefined_cast f mod 256
  end.

(** [.astype(np.uint8)] of an integer: the low eight bits. *)
Definition int_astype_uint8 (x : Z) : Z := x mod 256.

(** The divisor [pixel_array.max() - pixel_array.min()], computed in the
    array's dtype. *)
Definition divisor (t : dtype) (mx mn : Z) : Z := wrap t (mx - mn).

(** The float64 array [(pixel_array - min) / (max - min) * 255]. *)
Definition scale_sample (t : dtype) (mx mn x : Z) : float64 :=
  fmul_int (true_divide (wrap t (x - mn)) (divisor t mx mn)) 255.

Definition rescale (t : dtype) (mx mn x : Z) : Z :=
  float_astype_uint8 (scale_sample t mx mn x).

(** Lines 37-42: the normalized uint8 buffer, [None] when [max()] raises. *)
Definition normalize (a : ndarray) : option ndarray :=
  match arr_max (nd_data a), arr_min (nd_data a) with
  | Some mx, Some mn =>
      Some (mk_ndarray UInt8 (nd_shape a)
              (if 255 <? mx
               then map (rescale (nd_dtype a) mx mn) (nd_data a)
               else map int_astype_uint8 (nd_data a)))
  | _, _ => None
  end.

End Normalize.

(** ** Paths *)

Local Open Scope string_scope.

Fixpoint has_slash (s : string) : bool :=
  match s with
  | EmptyString => false
  | String c r => Ascii.eqb c "/"%char || has_slash r
  end.

(** [os.path.basename] / [Path.name]: what follows the last slash. *)
Fixpoint basename (s : string) : string :=
  match s with
  | EmptyString => EmptyString
  | String c r => if has_slash s then basename r else s
  end.

(** [Path.parent]: what precedes the last slash. *)
Fixpoint dirname (s : string) : string :=
  match s with
  | EmptyString => EmptyString
  | String c r => if has_slash r then String c (dirname r) else EmptyString
  end.

Fixpoint ends_with (suffix s : string) : bool :=
  String.eqb s suffix ||
  match s with
  | EmptyString => false
  | String _ r => ends_with suffix r
  end.

(** ** Data sets, the file system and the interpreter state *)

(** A DICOM data set: the [PixelData] element (its bytes) when present, and
    the other elements, which the script never looks at. *)
Record Dataset := mk_Dataset {
  PixelData : option (list Z);
  elements : list (string * string)
}.

Inductive entry :=
| Directory
| DicomFile (ds : Dataset)
| OtherFile.

Inductive exn :=
| FileNotFoundError (path : string)
| IsADirectoryError (path : string)
| InvalidDicomError (path : string)
| PixelDecodeError
| ValueError (msg : string)
| OSError (msg : string).

(** Lines written to standard output, one constructor per [print]. *)
Inductive line :=
| SkipNoPixelData (dicom_path : string)
    (* Skipping {dicom_path}: No pixel data *)
| SkipUnsupportedShape (dicom_path : string) (shape : list nat)
    (* Skipping {dicom_path}: Unsupported pixel array shape {shape} *)
| Burned (name : string)
    (* ✓ Burned text into {basename} *)
| DirectoryMissing (directory : string)
    (* Error: Directory {directory} does not exist *)
| NoDcmFiles (directory : string)
    (* No .dcm files found in {directory} *)
| FoundFiles (n : nat)
    (* Found {n} DICOM files *)
| BurningText (text : string)
    (* Burning text: '{text}' *)
| Rule
    (* "-" * 50 *)
| ErrorProcessing (name : string) (e : exn)
    (* ✗ Error processing {name}: {e} *)
| Summary (success_count total : nat).
    (* Successfully processed {success_count}/{total} files *)

Record world := mk_world {
  fs : gmap string entry;
  stdout : list line
}.

Inductive outcome (A : Type) :=
| Return (a : A)
| Raise (e : exn).
Arguments Return {A} a.
Arguments Raise {A} e.

(** Computations that read and write the world and may raise. *)
Definition M (A : Type) : Type := world -> outcome A * world.

Definition ret {A} (a : A) : M A := fun w => (Return a, w).
Definition raise {A} (e : exn) : M A := fun w => (Raise e, w).
Definition bind {A B} (m : M A) (k : A -> M B) : M B :=
  fun w => match m w with
           | (Return a, w') => k a w'
           | (Raise e, w') => (Raise e, w')
           end.
(** [try: m  except: h] *)
Definition try_except {A} (m : M A) (h : exn -> M A) : M A :=
  fun w => match m w with
           | (Return a, w') => (Return a, w')
           | (Raise e, w') => h e w'
           end.

#[global] Instance M_ret : MRet M := @ret.
#[global] Instance M_bind : MBind M := fun A B k m => bind m k.

Definition print (l : line) : M unit :=
  fun w => (Return tt, mk_world (fs w) (stdout w ++ [l])).

(** [pydicom.dcmread(path)] *)
Definition dcmread (path : string) : M Dataset :=
  fun w => match fs w !! path with
           | None => (Raise (FileNotFoundError path), w)
           | Some Directory => (Raise (IsADirectoryError path), w)
           | Some OtherFile => (Raise (InvalidDicomError path), w)
           | Some (DicomFile ds) => (Return ds, w)
           end.

(** [ds.save_as(path)] *)
Definition save_as (ds : Dataset) (path : string) : M unit :=
  fun w => (Return tt, mk_world (<[path := DicomFile ds]> (fs w)) (stdout w)).

Definition lift_option {A} (e : exn) (o : option A) : M A :=
  match o with
  | Some a => ret a
  | None => raise e
  end.

(** ** PIL images *)

Inductive mode := L | RGB.

Record Image := mk_Image {
  im_mode : mode;
  im_width : nat;
  im_height : nat;
  im_bytes : list Z
}.

Definition channels (m : mode) : nat :=
  match m with L => 1 | RGB => 3 end.

Inductive font :=
| TrueType (path : string) (size : Z)
| DefaultFont.

(** [Image.fromarray(a, mode=m)]: the size is [(shape[1], shape[0])]
    whatever the mode; the raw decoder reads [width * height * channels]
    bytes and raises when the buffer holds fewer. *)
Definition fromarray (a : ndarray) (m : mode) : M Image :=
  match nd_shape a with
  | h :: w :: _ =>
      let need := (w * h * channels m)%nat in
      if (length (nd_data a) <? need)%nat
      then raise (ValueError "not enough image data")
      else ret (mk_Image m w h (take need (nd_data a)))
  | _ => raise (ValueError "not enough image data")
  end.

(** [np.array(img)] *)
Definition asarray (img : Image) : ndarray :=
  mk_ndarray UInt8
    (match im_mode img with
     | L => [im_height img; im_width img]
     | RGB => [im_height img; im_width img; 3%nat]
     end)
    (im_bytes img).

(** Ink of an integer [fill]: clipped for mode L, split into its bytes
    (red lowest) for mode RGB. *)
Definition getink (m : mode) (fill : Z) : list Z :=
  match m with
  | L => [Z.min 255 (Z.max 0 fill)]
  | RGB => [Z.land fill 255; Z.land (Z.shiftr fill 8) 255;
            Z.land (Z.shiftr fill 16) 255]
  end.

(** Pillow's BLEND(mask, in1, in2) = DIV255(in1 * (255 - mask) + in2 * mask) *)
Definition blend (mask in1 in2 : Z) : Z :=
  let tmp := in1 * (255 - mask) + in2 * mask + 128 in
  Z.shiftr (Z.shiftr tmp 8 + tmp) 8.

Section Burn.

Variable rnd : Q -> Q.
Variable undefined_cast : float64 -> Z.

(** [ds.pixel_array]: pydicom's decoder, [None] when it raises. *)
Variable pixel_array : Dataset -> option ndarray.

(** Whether [ImageFont.truetype(path, size)] finds and loads the font. *)
Variable truetype_loads : string -> Z -> bool.

(** Coverage, 0 to 255, of the rasterized [text] at the pixel [(dx, dy)]
    from the anchor. *)
Variable glyph_mask : font -> string -> Z -> Z -> Z.

Definition truetype (path : string) (size : Z) : M font :=
  if truetype_loads path size then mret (TrueType path size)
  else raise (OSError "cannot open resource").

Definition load_default : M font := mret DefaultFont.

(** Lines 59-65. *)
Definition choose_font (img : Image) : M font :=
  try_except
    (let font_size := Z.max 20 (Z.of_nat (im_height img) / 20) in
     truetype "/System/Library/Fonts/Helvetica.ttc" font_size)
    (fun _ => load_default).

Definition coverage_at (f : font) (text : string) (position : Z * Z)
    (x y : Z) : Z :=
  glyph_mask f text (x - position.1) (y - position.2) mod 256.

(** [draw.text(position, text, fill=fill, font=f)]: every sample is
    blended with the ink of its channel under the glyph coverage of its
    pixel. *)
Definition draw_text (img : Image) (position : Z * Z) (text : string)
    (fill : Z) (f : font) : Image :=
  let ch := channels (im_mode img) in
  let ink := getink (im_mode img) fill in
  mk_Image (im_mode img) (im_width img) (im_height img)
    (imap (fun i old =>
             let px := (i / ch)%nat in
             let x := Z.of_nat (px mod im_width img) in
             let y := Z.of_nat (px / im_width img) in
             blend (coverage_at f text position x y) old
                   (nth (i mod ch) ink 0))
          (im_bytes img)).

Definition position : Z * Z := (10, 10).

(** Lines 15-84. *)
Definition burn_text_into_dicom (dicom_path text : string)
    (output_path : option string) : M bool :=
  ds ← dcmread dicom_path;
  match PixelData ds with
  | None =>
      print (SkipNoPixelData dicom_path);;
      mret false
  | Some _ =>
      raw ← lift_option PixelDecodeError (pixel_array ds);
      pixel_array ← lift_option
        (ValueError "zero-size array to reduction operation maximum")
        (normalize rnd undefined_cast raw);
      let finish (img : Image) : M bool :=
        f ← choose_font img;
        let img := draw_text img position text 255 f in
        let modified_array := asarray img in
        let ds := mk_Dataset (Some (nd_data modified_array)) (elements ds) in
        let output := match output_path with
                      | Some (String c o) => String c o
                      | _ => dicom_path
                      end in
        save_as ds output;;
        print (Burned (basename dicom_path));;
        mret true in
      match length (nd_shape pixel_array) with
      | 2%nat => img ← fromarray pixel_array L; finish img
      | 3%nat => img ← fromarray pixel_array RGB; finish img
      | _ =>
          print (SkipUnsupportedShape dicom_path (nd_shape pixel_array));;
          mret false
      end
  end.

(** [directory.exists()] *)
Definition exists_path (directory : string) : M bool :=
  fun w => (Return (bool_decide (is_Some (fs w !! directory))), w).

Definition is_dcm_child (directory path : string) : bool :=
  String.eqb (dirname path) directory && ends_with ".dcm" (basename path).

(** [list(directory.glob("*.dcm"))]: the entries of [directory] whose name
    ends in [.dcm], in the order the file system lists them. *)
Definition dcm_listing (directory : string) (w : world) : list string :=
  filter (fun p => is_dcm_child directory p = true) (map_to_list (fs w)).*1.

Definition glob_dcm (directory : string) : M (list string) :=
  fun w => (Return (dcm_listing directory w), w).

(** Lines 112-118: the loop, threading [success_count]. *)
Fixpoint burn_each (dicom_files : list string) (text : string)
    (success_count : nat) : M nat :=
  match dicom_files with
  | [] => mret success_count
  | dcm_file :: rest =>
      success_count ←
        try_except
          (ok ← burn_text_into_dicom dcm_file text None;
           mret (if ok : bool then S success_count else success_count))
          (fun e =>
             print (ErrorProcessing (basename dcm_file) e);;
             mret success_count);
      burn_each rest text success_count
  end.

(** Lines 87-121. *)
Definition process_directory (directory text : string) : M unit :=
  present ← exists_path directory;
  if negb present then print (DirectoryMissing directory)
  else
    dicom_files ← glob_dcm directory;
    match dicom_files with
    | [] => print (NoDcmFiles directory)
    | _ =>
        print (FoundFiles (length dicom_files));;
        print (BurningText text);;
        print Rule;;
        success_count ← burn_each dicom_files text 0%nat;
        print Rule;;
        print (Summary success_count (length dicom_files))
    end.

End Burn.

(** ** The scripts that talk to the server and to the browser *)

Module Script.

Inductive resource := HttpSession | Browser.

(** A row of a listing: the fields of one JSON object. *)
Definition item := list (string * string).

(** An HTTP response: [result] is
    [response.json().get('ResultSet', {}).get('Result', [])], [None] when
    [json()] raises. *)
Record response := mk_response {
  status_code : Z;
  text : string;
  result : option (list item)
}.

Inductive request :=
| Post (url : string)
| Get (url : string).

Record log_entry := mk_log_entry { level : string; message : string }.

(** WebDriver commands; elements are numbered handles. *)
Inductive call :=
| Launch
| Navigate (url : string)
| FindElements (tag : string)
| FindElement (tag : string)
| ElementText (el : nat)
| Clear (el : nat)
| SendKeys (el : nat) (keys : string)
| Click (el : nat)
| GetAttribute (el : nat) (name : string)
| GetLog (kind : string)
| SaveScreenshot (path : string).

Inductive answer :=
| Unit
| Elements (els : list nat)
| Element (el : nat)
| Str (s : string)
| Logs (entries : list log_entry).

Record scan_info := mk_scan_info {
  project : string;
  experiment : string;
  scan : string;
  files : nat
}.

(** What the scripts print: fixed text, or a line with its variable part. *)
Inductive sline :=
| Text (s : string)
| LoginFailed (code : Z)                 (* Login failed: {status_code} *)
| LoggedIn (jsessionid : string)         (* ✓ Logged in (JSESSIONID: ...) *)
| Searching (n : nat)                    (* Searching {n} projects ... *)
| FoundScan (i : nat) (info : scan_info) (* {i}. {files} files - Project ... *)
| Recommended (info : scan_info)         (* RECOMMENDED: Use scan with ... *)
| LoadingViewer (url : string)           (* Loading viewer: {url} *)
| LogLine (lvl msg : string)             (* {icon} [{level}] {clean_msg} *)
| ExpectedInputs (n : nat)               (* ❌ Expected 3 inputs, found {n} *)
| ConsoleError (msg : string)            (*    - {message[:150]} *)
| ViewerElement (key : string) (found : bool)
| Activity (msg : string)                (*    • {log} *)
| ErrorCount (n : nat)
| FailedUrl (url_part : string)
| WarningCount (n : nat)
| ConsoleWarning (msg : string)
| CanvasCount (n : nat)
| CanvasSize (i : nat) (width height : string).

Inductive event :=
| Acquire (r : resource)
| Release (r : resource)
| Http (rq : request)
| Webdriver (c : call)
| Sleep (seconds : Z)
| Print (l : sline).

(** How a run of a script stops short: an exception, or [exit(code)]. *)
Inductive abort :=
| Exception (msg : string)
| SystemExit (code : Z).

Inductive outcome (A : Type) :=
| Done (a : A)
| Abort (x : abort).
Arguments Done {A} a.
Arguments Abort {A} x.

(** A script fragment: extends the trace of events and ends or aborts. *)
Definition Prog (A : Type) : Type := list event -> outcome A * list event.

Definition pure {A} (a : A) : Prog A := fun t => (Done a, t).
Definition throw {A} (x : abort) : Prog A := fun t => (Abort x, t).
Definition seq {A B} (m : Prog A) (k : A -> Prog B) : Prog B :=
  fun t => match m t with
           | (Done a, t') => k a t'
           | (Abort x, t') => (Abort x, t')
           end.

#[global] Instance Prog_ret : MRet Prog := @pure.
#[global] Instance Prog_bind : MBind Prog := fun A B k m => seq m k.

Definition emit (e : event) : Prog unit := fun t => (Done tt, (t ++ [e])%list).
Definition say (l : sline) : Prog unit := emit (Print l).
Definition exit {A} (code : Z) : Prog A := throw (SystemExit code).

(** [try: body  finally: final] — [final] runs however [body] ends; the
    abort of [body] is raised again afterwards unless [final] aborts. *)
Definition try_finally {A} (body : Prog A) (final : Prog unit) : Prog A :=
  fun t => match body t with
           | (Done a, t') =>
               match final t' with
               | (Done _, t'') => (Done a, t'')
               | (Abort y, t'') => (Abort y, t'')
               end
           | (Abort x, t') =>
               match final t' with
               | (Done _, t'') => (Abort x, t'')
               | (Abort y, t'') => (Abort y, t'')
               end
           end.

(** Whether [r] is held at the end of the trace. *)
Definition resource_eqb (a b : resource) : bool :=
  match a, b with
  | HttpSession, HttpSession | Browser, Browser => true
  | _, _ => false
  end.

Definition held (r : resource) (t : list event) : bool :=
  foldl (fun h e =>
           match e with
           | Acquire r' => if resource_eqb r r' then true else h
           | Release r' => if resource_eqb r r' then false else h
           | _ => h
           end) false t.

(** *** [find_small_scan.py] *)

Definition is_space (c : ascii) : bool :=
  let n := nat_of_ascii c in
  (n =? 32)%nat || ((9 <=? n)%nat && (n <=? 13)%nat).

Fixpoint lstrip (s : string) : string :=
  match s with
  | String c r => if is_space c then lstrip r else s
  | EmptyString => EmptyString
  end.

Fixpoint rstrip (s : string) : string :=
  match s with
  | String c r =>
      match rstrip r with
      | EmptyString => if is_space c then EmptyString else String c EmptyString
      | r' => String c r'
      end
  | EmptyString => EmptyString
  end.

(** [str.strip()] *)
Definition strip (s : string) : string := rstrip (lstrip s).

Definition lower_ascii (c : ascii) : ascii :=
  let n := nat_of_ascii c in
  if (65 <=? n)%nat && (n <=? 90)%nat then ascii_of_nat (n + 32) else c.

(** [str.lower()] on ASCII text *)
Fixpoint lower (s : string) : string :=
  match s with
  | String c r => String (lower_ascii c) (lower r)
  | EmptyString => EmptyString
  end.

(** [d.get(key)] *)
Fixpoint get (key : string) (d : item) : option string :=
  match d with
  | [] => None
  | (k, v) :: r => if String.eqb k key then Some v else get key r
  end.

(** An identifier placed in an f-string; [None] prints as [None]. *)
Definition fmt (o : option string) : string := default "None" o.

(** [l.sort(key=lambda x: x['files'])]: stable, ascending. *)
Fixpoint insert_by_files (x : scan_info) (l : list scan_info) : list scan_info :=
  match l with
  | [] => [x]
  | y :: r => if (files x <? files y)%nat then x :: y :: r
              else y :: insert_by_files x r
  end.

Definition sort_by_files (l : list scan_info) : list scan_info :=
  foldl (fun acc x => insert_by_files x acc) [] l.

Definition xnat_server : string := "http://demo02.xnatworks.io".
Definition login_url : string := xnat_server +:+ "/data/JSESSION".
Definition projects_url : string := xnat_server +:+ "/data/archive/projects".
Definition experiments_url (proj_id : string) : string :=
  xnat_server +:+ "/data/archive/projects/" +:+ proj_id +:+ "/experiments".
Definition scans_url (exp_id : string) : string :=
  xnat_server +:+ "/data/archive/experiments/" +:+ exp_id +:+ "/scans".
Definition files_url (exp_id scan_id : string) : string :=
  xnat_server +:+ "/data/archive/experiments/" +:+ exp_id +:+ "/scans/"
    +:+ scan_id +:+ "/resources/DICOM/files".

(** [needle in s] *)
Fixpoint contains (needle s : string) : bool :=
  String.prefix needle s ||
  match s with
  | String _ r => contains needle r
  | EmptyString => false
  end.

(** [s.split(sep)] for a separator of one character. *)
Fixpoint split_on (sep : ascii) (s : string) : list string :=
  match s with
  | EmptyString => [EmptyString]
  | String c r =>
      if Ascii.eqb c sep then EmptyString :: split_on sep r
      else match split_on sep r with
           | p :: ps => String c p :: ps
           | [] => [String c EmptyString]
           end
  end.

Definition quote : ascii := ascii_of_nat 34.
Definition blank : ascii := ascii_of_nat 32.

(** [parts[-2]] and [parts[-1]] *)
Definition second_last (parts : list string) : option string :=
  match rev parts with
  | _ :: p :: _ => Some p
  | _ => None
  end.

Definition last_part (parts : list string) : string :=
  match rev parts with
  | p :: _ => p
  | [] => EmptyString
  end.

Definition non_empty (s : string) : bool :=
  match s with EmptyString => false | _ => true end.

Definition viewer_url : string :=
  "http://localhost:5173/experiments/XNAT_E00041/scans/2/cornerstone".
Definition app_url : string := "http://localhost:5173".

Section Scripts.

(** The server: its answer to a request after the events so far, or the
    message of the exception that [requests] raises. *)
Variable server : list event -> request -> string + response.

(** The browser behind the WebDriver, likewise. *)
Variable browser : list event -> call -> string + answer.

Definition http (rq : request) : Prog response :=
  fun t => match server t rq with
           | inr r => (Done r, (t ++ [Http rq])%list)
           | inl msg => (Abort (Exception msg), (t ++ [Http rq])%list)
           end.

Definition json_result (r : response) : Prog (list item) :=
  match result r with
  | Some l => pure l
  | None => throw (Exception "JSONDecodeError")
  end.

(** Lines 58-76. *)
Fixpoint scan_loop (proj_id exp_id : string) (scans : list item)
    (scans_found : list scan_info) : Prog (list scan_info) :=
  match scans with
  | [] => mret scans_found
  | scan :: rest =>
      let scan_id := fmt (get "ID" scan) in
      files_response ← http (Get (files_url exp_id scan_id));
      scans_found ←
        (if (status_code files_response =? 200)%Z then
           files ← json_result files_response;
           let dicom_files :=
             filter (fun f => ends_with ".dcm"
                                (lower (default "" (get "Name" f))) = true)
                    files in
           mret (if (0 <? length dicom_files)%nat
                 then (scans_found ++
                         [mk_scan_info proj_id exp_id scan_id
                                       (length dicom_files)])%list
                 else scans_found)
         else mret scans_found);
      scan_loop proj_id exp_id rest scans_found
  end.

(** Lines 46-76. *)
Fixpoint experiment_loop (proj_id : string) (experiments : list item)
    (scans_found : list scan_info) : Prog (list scan_info) :=
  match experiments with
  | [] => mret scans_found
  | exp :: rest =>
      let exp_id := fmt (get "ID" exp) in
      scans_response ← http (Get (scans_url exp_id));
      scans_found ←
        (if (status_code scans_response =? 200)%Z then
           scans ← json_result scans_response;
           scan_loop proj_id exp_id scans scans_found
         else mret scans_found);
      experiment_loop proj_id rest scans_found
  end.

(** Lines 34-76. *)
Fixpoint project_loop (projects : list item)
    (scans_found : list scan_info) : Prog (list scan_info) :=
  match projects with
  | [] => mret scans_found
  | proj :: rest =>
      let proj_id := fmt (get "ID" proj) in
      exp_response ← http (Get (experiments_url proj_id));
      scans_found ←
        (if (status_code exp_response =? 200)%Z then
           experiments ← json_result exp_response;
           experiment_loop proj_id (take 3 experiments) scans_found
         else mret scans_found);
      project_loop rest scans_found
  end.

(** Lines 85-89. *)
Fixpoint print_found (i : nat) (l : list scan_info) : Prog unit :=
  match l with
  | [] => mret tt
  | scan_info :: rest => say (FoundScan i scan_info);; print_found (S i) rest
  end.

(** The whole script. *)
Definition find_small_scan : Prog unit :=
  say (Text "Finding a smaller scan for testing...");;
  emit (Acquire HttpSession);;
  response ← http (Post login_url);
  (if negb (status_code response =? 200)%Z then
     say (LoginFailed (status_code response));;
     exit 1
   else mret tt);;
  let jsessionid := strip (text response) in
  say (LoggedIn (substring 0 20 jsessionid));;
  response ← http (Get projects_url);
  projects ← json_result response;
  say (Searching (length projects));;
  scans_found ← project_loop (take 15 projects) [];
  let scans_found := sort_by_files scans_found in
  say (Text "FOUND SCANS (sorted by size)");;
  print_found 1 (take 10 scans_found);;
  match scans_found with
  | smallest :: _ => say (Recommended smallest)
  | [] => mret tt
  end.

(** *** WebDriver calls *)

Definition driver (c : call) : Prog answer :=
  fun t => match browser t c with
           | inr a => (Done a, (t ++ [Webdriver c])%list)
           | inl msg => (Abort (Exception msg), (t ++ [Webdriver c])%list)
           end.

(** [webdriver.Chrome(...)]: the browser is held once the call returns. *)
Definition launch : Prog unit := driver Launch;; emit (Acquire Browser).

(** [driver.quit()] *)
Definition quit : Prog unit := emit (Release Browser).

Definition sleep (seconds : Z) : Prog unit := emit (Sleep seconds).

Definition find_elements (tag : string) : Prog (list nat) :=
  a ← driver (FindElements tag);
  match a with
  | Elements els => mret els
  | _ => throw (Exception "TypeError")
  end.

Definition find_element (tag : string) : Prog nat :=
  a ← driver (FindElement tag);
  match a with
  | Element el => mret el
  | _ => throw (Exception "TypeError")
  end.

(** [element.text] *)
Definition element_text (el : nat) : Prog string :=
  a ← driver (ElementText el);
  match a with
  | Str s => mret s
  | _ => throw (Exception "TypeError")
  end.

(** [element.get_attribute(name)], formatted; a missing attribute is [None]. *)
Definition get_attribute (el : nat) (name : string) : Prog string :=
  a ← driver (GetAttribute el name);
  match a with
  | Str s => mret s
  | _ => mret "None"
  end.

Definition get_log (kind : string) : Prog (list log_entry) :=
  a ← driver (GetLog kind);
  match a with
  | Logs entries => mret entries
  | _ => throw (Exception "TypeError")
  end.

(** [l[i]] *)
Definition index {A} (l : list A) (i : nat) : Prog A :=
  match l !! i with
  | Some a => mret a
  | None => throw (Exception "IndexError")
  end.

(** *** [test_console_logs.py] *)

(** Lines 36-39. *)
Fixpoint click_sign_in (announce : bool) (buttons : list nat) : Prog unit :=
  match buttons with
  | [] => mret tt
  | button :: rest =>
      label ← element_text button;
      if contains "Sign in" label then
        driver (Click button);;
        (if announce then say (Text "Clicked Sign in") else mret tt)
      else click_sign_in announce rest
  end.

(** Lines 59-67. *)
Definition clean_message (msg : string) : string :=
  if contains (String quote EmptyString) msg then
    let parts := split_on quote msg in
    if (2 <=? length parts)%nat then
      match second_last parts with
      | Some p => if non_empty (strip p) then p else msg
      | None => msg
      end
    else msg
  else msg.

(** Lines 55-70. *)
Fixpoint print_logs (logs : list log_entry) : Prog unit :=
  match logs with
  | [] => mret tt
  | log :: rest =>
      say (LogLine (level log) (clean_message (message log)));;
      print_logs rest
  end.

Definition test_console_logs : Prog unit :=
  launch;;
  try_finally
    (driver (Navigate app_url);;
     sleep 2;;
     inputs ← find_elements "input";
     username ← index inputs 1;
     driver (SendKeys username "admin");;
     password ← index inputs 2;
     driver (SendKeys password "admin");;
     buttons ← find_elements "button";
     click_sign_in false buttons;;
     sleep 5;;
     say (LoadingViewer viewer_url);;
     driver (Navigate viewer_url);;
     sleep 25;;
     logs ← get_log "browser";
     say (Text "ALL CONSOLE LOGS");;
     print_logs logs)
    quit.

(** *** [test_viewer_headless.py] *)

Definition severe (logs : list log_entry) : list log_entry :=
  filter (fun log => String.eqb (level log) "SEVERE" = true) logs.

Definition warnings_of (logs : list log_entry) : list log_entry :=
  filter (fun log => String.eqb (level log) "WARNING" = true) logs.

Fixpoint say_each {A} (f : A -> sline) (l : list A) : Prog unit :=
  match l with
  | [] => mret tt
  | x :: rest => say (f x);; say_each f rest
  end.

Definition viewer_keys : list string :=
  ["MPR Viewer"; "Axial"; "Sagittal"; "Coronal"; "slices"].

Definition keywords : list string :=
  ["Cornerstone"; "DICOM"; "Loading volume"; "loaded"; "Initializing"].

(** Lines 131-141. *)
Definition cornerstone_logs (logs : list log_entry) : list string :=
  foldl (fun acc log =>
           let msg := message log in
           if existsb (fun keyword => contains keyword msg) keywords then
             if contains (String quote EmptyString) msg then
               let parts := split_on quote msg in
               if (1 <? length parts)%nat then
                 match second_last parts with
                 | Some p => (acc ++ [p])%list
                 | None => acc
                 end
               else acc
             else (acc ++ [substring 0 80 (last_part (split_on blank msg))])%list
           else acc) [] logs.

(** Lines 155-162. *)
Definition error_line (error : log_entry) : sline :=
  let msg := message error in
  if contains "http" msg
  then FailedUrl (substring 0 60 (last_part (split_on blank msg)))
  else ConsoleError (substring 0 150 msg).

(** Lines 176-179. *)
Fixpoint print_canvases (i : nat) (canvases : list nat) : Prog unit :=
  match canvases with
  | [] => mret tt
  | canvas :: rest =>
      width ← get_attribute canvas "width";
      height ← get_attribute canvas "height";
      say (CanvasSize (S i) width height);;
      print_canvases (S i) rest
  end.

(** Lines 34-193, the body of the [try]. *)
Definition headless_body : Prog unit :=
  say (Text "[1/5] Loading app and waiting for login form...");;
  driver (Navigate app_url);;
  sleep 2;;
  say (Text "[2/5] Filling in login credentials...");;
  inputs ← find_elements "input";
  (if (length inputs <? 3)%nat then
     say (ExpectedInputs (length inputs));;
     driver (SaveScreenshot "/tmp/error_screenshot.png");;
     exit 1
   else mret tt);;
  username ← index inputs 1;
  driver (Clear username);;
  driver (SendKeys username "admin");;
  say (Text "Username: admin");;
  password ← index inputs 2;
  driver (Clear password);;
  driver (SendKeys password "admin");;
  say (Text "Password: ****");;
  say (Text "[3/5] Submitting login...");;
  buttons ← find_elements "button";
  click_sign_in true buttons;;
  sleep 6;;
  body ← find_element "body";
  page_text ← element_text body;
  (if contains "Sign in to XNAT" page_text then
     say (Text "Login failed - still on login page");;
     driver (SaveScreenshot "/tmp/login_failed.png");;
     say (Text "Screenshot saved: /tmp/login_failed.png");;
     logs ← get_log "browser";
     let errors := severe logs in
     (match errors with
      | [] => mret tt
      | _ =>
          say (Text "Console errors:");;
          say_each (fun error => ConsoleError (substring 0 150 (message error)))
                   (take 3 errors)
      end);;
     exit 1
   else say (Text "Login successful!"));;
  say (Text "[4/5] Navigating to Cornerstone viewer...");;
  say (LoadingViewer viewer_url);;
  driver (Navigate viewer_url);;
  say (Text "Waiting 20 seconds for DICOM data to load and render...");;
  sleep 20;;
  driver (SaveScreenshot "/tmp/cornerstone_final.png");;
  say (Text "Screenshot: /tmp/cornerstone_final.png");;
  say (Text "[5/5] Analyzing viewer state...");;
  body ← find_element "body";
  final_page_text ← element_text body;
  let checks := map (fun key => (key, contains key final_page_text))
                    viewer_keys in
  let viewer_found := existsb snd checks in
  say (Text "Viewer Elements:");;
  say_each (fun kv => ViewerElement kv.1 kv.2) checks;;
  logs ← get_log "browser";
  let activity := cornerstone_logs logs in
  (match activity with
   | [] => mret tt
   | _ =>
       say (Text "Cornerstone Activity Logs:");;
       say_each Activity
                (filter (fun log => non_empty (strip log) = true)
                        (take 10 activity))
   end);;
  let errors := severe logs in
  let warnings := warnings_of logs in
  (match errors with
   | [] => say (Text "No console errors")
   | _ => say (ErrorCount (length errors));;
          say_each error_line (take 5 errors)
   end);;
  (match warnings with
   | [] => mret tt
   | _ => say (WarningCount (length warnings));;
          say_each (fun warning =>
                      ConsoleWarning (substring 0 150 (message warning)))
                   (take 3 warnings)
   end);;
  canvases ← find_elements "canvas";
  say (CanvasCount (length canvases));;
  print_canvases 0 (take 3 canvases);;
  if viewer_found && (3 <=? length canvases)%nat then
    say (Text "SUCCESS: Cornerstone viewer loaded with canvases!")
  else if viewer_found then
    say (Text "PARTIAL: Viewer UI loaded but canvases not found")
  else
    say (Text "FAILED: Viewer did not load").

Definition test_viewer_headless : Prog unit :=
  say (Text "Testing Cornerstone Viewer (Headless)");;
  launch;;
  try_finally headless_body (quit;; say (Text "Test complete.")).

End Scripts.

End Script.

(** * Properties *)

Local Open Scope Z_scope.
Local Open Scope list_scope.

(** ** The divisor of the normalization *)

Lemma arr_max_repeat (v : Z) (n : nat) : arr_max (repeat v (S n)) = Some v.
Proof.
  simpl. f_equal. induction n as [|n IH]; simpl; [done|]. rewrite IH. lia.
Qed.

Lemma arr_min_repeat (v : Z) (n : nat) : arr_min (repeat v (S n)) = Some v.
Proof.
  simpl. f_equal. induction n as [|n IH]; simpl; [done|]. rewrite IH. lia.
Qed.

Lemma wrap_zero (t : dtype) : wrap t 0 = 0.
Proof. by destruct t. Qed.

(** Every buffer of one repeated value has divisor zero, whatever the
    dtype and the value. *)
Lemma divisor_constant (t : dtype) (v : Z) : divisor t v v = 0.
Proof. unfold divisor. rewrite Z.sub_diag. apply wrap_zero. Qed.

(** C5. The rescaling branch does divide by zero: a 16-bit buffer of two
    samples, both 1000, has maximum 1000 > 255, so it takes the branch, and
    its divisor [max - min] is 0; each sample becomes 0/0 = nan. *)
Theorem divisor_zero_on_constant_buffer :
  let data := [1000; 1000] in
  arr_max data = Some 1000 /\ arr_min data = Some 1000 /\
  (255 <? 1000) = true /\
  divisor UInt16 1000 1000 = 0 /\
  forall rnd x, In x data -> scale_sample rnd UInt16 1000 1000 x = FNaN.
Proof.
  repeat split; try reflexivity.
  intros rnd x [<-|[<-|[]]]; reflexivity.
Qed.

(** ** The scripts *)

Section ScriptProps.
Import Script.

Lemma held_snoc_release (r : resource) (t : list event) :
  held r (t ++ [Release r]) = false.
Proof. unfold held. rewrite foldl_app. simpl. by destruct r. Qed.

Lemma held_snoc_print (r : resource) (t : list event) (l : sline) :
  held r (t ++ [Print l]) = held r t.
Proof. unfold held. by rewrite foldl_app. Qed.

(** C9. When the login request returns with a status other than 200, the
    script prints the failure notice and exits with status 1; by then it has
    sent the login request and nothing else, so no listing request. *)
Theorem login_failure_aborts
    (server : list event -> request -> string + response) (resp : response) :
  let t0 := [Print (Text "Finding a smaller scan for testing...");
             Acquire HttpSession] in
  server t0 (Post login_url) = inr resp ->
  status_code resp <> 200 ->
  find_small_scan server [] =
    (Abort (SystemExit 1),
     t0 ++ [Http (Post login_url); Print (LoginFailed (status_code resp))]) /\
  Forall (fun e => forall url, e <> Http (Get url))
         (find_small_scan server []).2.
Proof.
  intros t0 Hresp Hcode.
  assert (Hrun : find_small_scan server [] =
    (Abort (SystemExit 1),
     t0 ++ [Http (Post login_url); Print (LoginFailed (status_code resp))])).
  { unfold find_small_scan, mbind, Prog_bind, seq, say, emit, http. simpl.
    fold t0. rewrite Hresp. simpl.
    destruct (status_code resp =? 200) eqn:E; [lia|]. reflexivity. }
  split; [exact Hrun|]. rewrite Hrun. simpl.
  repeat constructor; intros url; discriminate.
Qed.

Definition failing_server : list event -> request -> string + response :=
  fun _ _ => inr (mk_response 401 "" None).

Lemma login_failure_aborts_witness :
  find_small_scan failing_server [] =
    (Abort (SystemExit 1),
     [Print (Text "Finding a smaller scan for testing...");
      Acquire HttpSession; Http (Post login_url); Print (LoginFailed 401)]) /\
  Forall (fun e => forall url, e <> Http (Get url))
         (find_small_scan failing_server []).2.
Proof.
  apply (login_failure_aborts failing_server (mk_response 401 "" None));
    [reflexivity | simpl; lia].
Defined.

(** *** Release of the browser and of the HTTP session *)

Lemma try_finally_quit {A} (body : Prog A) (t : list event) :
  held Browser (try_finally body quit t).2 = false.
Proof.
  unfold try_finally, quit, emit.
  destruct (body t) as [[a|x] t']; simpl; apply held_snoc_release.
Qed.

Lemma try_finally_quit_say {A} (body : Prog A) (l : sline) (t : list event) :
  held Browser (try_finally body (quit;; say l) t).2 = false.
Proof.
  unfold try_finally, quit, say, emit, mbind, Prog_bind, seq.
  destruct (body t) as [[a|x] t']; simpl;
    rewrite held_snoc_print; apply held_snoc_release.
Qed.

(** A fragment that only appends events satisfying [P]. *)
Definition appends {A} (P : event -> Prop) (m : Prog A) : Prop :=
  forall t, exists t', (m t).2 = t ++ t' /\ Forall P t'.

Lemma appends_pure {A} P (a : A) : appends P (mret a).
Proof. intros t. exists []. by rewrite app_nil_r. Qed.

Lemma appends_throw {A} P (x : abort) : appends P (@throw A x).
Proof. intros t. exists []. by rewrite app_nil_r. Qed.

Lemma appends_emit P (e : event) : P e -> appends P (emit e).
Proof. intros He t. exists [e]. by repeat constructor. Qed.

Lemma appends_bind {A B} P (m : Prog A) (k : A -> Prog B) :
  appends P m -> (forall a, appends P (k a)) -> appends P (m ≫= k).
Proof.
  intros Hm Hk t. unfold mbind, Prog_bind, seq.
  destruct (Hm t) as (t1 & E1 & F1).
  destruct (m t) as [[a|x] t'] eqn:Em; simpl in E1; subst t'.
  - destruct (Hk a (t ++ t1)) as (t2 & E2 & F2).
    exists (t1 ++ t2). rewrite E2, app_assoc. split; [done|].
    by apply Forall_app.
  - by exists t1.
Qed.

Lemma appends_http P server (rq : request) :
  P (Http rq) -> appends P (http server rq).
Proof.
  intros He t. exists [Http rq]. unfold http.
  destruct (server t rq); simpl; by repeat constructor.
Qed.

Lemma appends_json_result P (r : response) : appends P (json_result r).
Proof.
  unfold json_result. destruct (result r);
    [apply (appends_pure P) | apply appends_throw].
Qed.

Definition keeps_session (e : event) : Prop := e <> Release HttpSession.

Ltac appends_step :=
  first [ apply appends_bind; [|intros ?]
        | apply (appends_pure keeps_session)
        | apply appends_throw
        | apply appends_json_result
        | apply appends_http; discriminate
        | apply appends_emit; discriminate ].

Lemma appends_scan_loop server proj_id exp_id scans acc :
  appends keeps_session (scan_loop server proj_id exp_id scans acc).
Proof.
  revert acc. induction scans as [|scan rest IH]; intros acc; simpl.
  - appends_step.
  - appends_step; [appends_step|]. appends_step; [|apply IH].
    destruct (_ =? 200); repeat appends_step.
Qed.

Lemma appends_experiment_loop server proj_id experiments acc :
  appends keeps_session (experiment_loop server proj_id experiments acc).
Proof.
  revert acc. induction experiments as [|exp rest IH]; intros acc; simpl.
  - appends_step.
  - appends_step; [appends_step|]. appends_step; [|apply IH].
    destruct (_ =? 200); repeat appends_step. apply appends_scan_loop.
Qed.

Lemma appends_project_loop server projects acc :
  appends keeps_session (project_loop server projects acc).
Proof.
  revert acc. induction projects as [|proj rest IH]; intros acc; simpl.
  - appends_step.
  - appends_step; [appends_step|]. appends_step; [|apply IH].
    destruct (_ =? 200); repeat appends_step. apply appends_experiment_loop.
Qed.

Lemma appends_print_found i l : appends keeps_session (print_found i l).
Proof.
  revert i. induction l as [|x l IH]; intros i; simpl.
  - appends_step.
  - appends_step; [apply appends_emit; discriminate | apply IH].
Qed.

Lemma held_kept (t t' : list event) :
  held HttpSession t = true -> Forall keeps_session t' ->
  held HttpSession (t ++ t') = true.
Proof.
  intros Ht Hf. revert t Ht. induction Hf as [|e t' He _ IH]; intros t Ht.
  - by rewrite app_nil_r.
  - change (e :: t') with ([e] ++ t'). rewrite app_assoc. apply IH.
    unfold held in *. rewrite foldl_app. cbn [foldl]. rewrite Ht.
    destruct e as [r|r| | | |]; try done; destruct r; done.
Qed.

Lemma run_emit_bind {B} (e : event) (k : unit -> Prog B) (t : list event) :
  (emit e ≫= k) t = k tt (t ++ [e]).
Proof. reflexivity. Qed.

(** On every run of [find_small_scan.py] the HTTP session is still held
    when the script ends. *)
Lemma session_never_released server :
  held HttpSession (find_small_scan server []).2 = true.
Proof.
  unfold find_small_scan, say. rewrite !run_emit_bind.
  match goal with |- held _ (?rest ?t).2 = true =>
    assert (Hrest : appends keeps_session rest) end.
  { repeat appends_step.
    - destruct (negb _); repeat appends_step.
    - apply appends_project_loop.
    - apply appends_print_found.
    - destruct (sort_by_files _); repeat appends_step. }
  match goal with |- held _ (?rest ?t).2 = true =>
    destruct (Hrest t) as (t' & -> & Hkeep) end.
  by apply held_kept.
Qed.

Lemma launch_then {A} browser (k : unit -> Prog A) (t : list event) :
  (launch browser ≫= k) t =
    match browser t Launch with
    | inl msg => (Abort (Exception msg), t ++ [Webdriver Launch])
    | inr _ => k tt ((t ++ [Webdriver Launch]) ++ [Acquire Browser])
    end.
Proof.
  unfold launch, driver, mbind, Prog_bind, seq.
  by destruct (browser t Launch).
Qed.

(** C10, counterexample. The run of [find_small_scan.py] against a server
    that refuses the login ends, with exit status 1, while the HTTP session
    acquired on line 14 is still held: no path of that script releases it. *)
Lemma session_still_held_at_exit :
  (find_small_scan failing_server []).1 = Abort (SystemExit 1) /\
  held HttpSession (find_small_scan failing_server []).2 = true.
Proof. split; reflexivity. Qed.

(** C10, amended. The two browser scripts release the browser on every
    path: however the steps inside the [try] end (normally, with an
    exception, or with [exit(1)]), and whatever the browser answers, the
    browser is not held when the script ends. The HTTP session of
    [find_small_scan.py], in contrast, is never released: it is held at the
    end of every run. *)
Theorem browser_released_session_kept
    (server : list event -> request -> string + response)
    (browser : list event -> call -> string + answer) :
  held Browser (test_console_logs browser []).2 = false /\
  held Browser (test_viewer_headless browser []).2 = false /\
  held HttpSession (find_small_scan server []).2 = true.
Proof.
  split; [|split].
  - unfold test_console_logs. rewrite launch_then.
    destruct (browser [] Launch) as [msg|a]; [reflexivity|].
    apply try_finally_quit.
  - unfold test_viewer_headless, say. rewrite run_emit_bind, launch_then.
    destruct (browser _ Launch) as [msg|a]; [reflexivity|].
    apply try_finally_quit_say.
  - apply session_never_released.
Qed.

End ScriptProps.

(** ** The text-burning routine *)

Section BurnProps.

Variable rnd : Q -> Q.
Variable undefined_cast : float64 -> Z.
Variable pixel_array : Dataset -> option ndarray.
Variable truetype_loads : string -> Z -> bool.
Variable glyph_mask : font -> string -> Z -> Z -> Z.

Local Abbreviation burn :=
  (burn_text_into_dicom rnd undefined_cast pixel_array truetype_loads
     glyph_mask).
Local Abbreviation process :=
  (process_directory rnd undefined_cast pixel_array truetype_loads
     glyph_mask).

(** C6. A file whose data set has no [PixelData] element is skipped: the
    call prints the skip line, returns [False] without raising, and leaves
    the file system as it was. *)
Theorem burn_without_pixel_data
    (w : world) (dicom_path text : string) (output_path : option string)
    (ds : Dataset) :
  fs w !! dicom_path = Some (DicomFile ds) ->
  PixelData ds = None ->
  burn dicom_path text output_path w =
    (Return false,
     mk_world (fs w) (stdout w ++ [SkipNoPixelData dicom_path])).
Proof.
  intros Hfile Hpix.
  unfold burn_text_into_dicom, mbind, M_bind, bind, dcmread.
  rewrite Hfile, Hpix. reflexivity.
Qed.

Lemma dcm_listing_elem (directory p : string) (w : world) :
  p ∈ dcm_listing directory w <->
  is_dcm_child directory p = true /\ is_Some (fs w !! p).
Proof.
  unfold dcm_listing. rewrite list_elem_of_filter, list_elem_of_fmap.
  split.
  - intros [Hc ([q e] & -> & Hin)]. split; [done|].
    apply elem_of_map_to_list in Hin. by exists e.
  - intros [Hc [e He]]. split; [done|]. exists (p, e). split; [done|].
    by apply elem_of_map_to_list.
Qed.

Lemma dcm_listing_NoDup (directory : string) (w : world) :
  NoDup (dcm_listing directory w).
Proof. apply NoDup_filter, NoDup_fst_map_to_list. Qed.


(** *** The batch loop *)

(** The lines that report on the file [p]. *)
Inductive reports_on (p : string) : line -> Prop :=
| reports_burned : reports_on p (Burned (basename p))
| reports_no_pixel_data : reports_on p (SkipNoPixelData p)
| reports_unsupported shape : reports_on p (SkipUnsupportedShape p shape)
| reports_error e : reports_on p (ErrorProcessing (basename p) e).

(** Whether the call on [p] returns [True] in the world [w]; a file fails
    when the call returns [False] or raises. *)
Definition burn_ok (text : string) (w : world) (p : string) : bool :=
  match (burn p text None w).1 with
  | Return true => true
  | _ => false
  end.

Ltac run_burn :=
  unfold burn_text_into_dicom, mbind, M_bind, bind, dcmread, lift_option,
    print, save_as, fromarray, choose_font, try_except, truetype,
    load_default, mret, M_ret, ret, raise.

Lemma burn_cases (p text : string) (w : world) :
  (exists ds',
      burn p text None w =
        (Return true, mk_world (<[p := DicomFile ds']> (fs w))
                               (stdout w ++ [Burned (basename p)]))) \/
  (exists l,
      burn p text None w = (Return false, mk_world (fs w) (stdout w ++ [l])) /\
      reports_on p l) \/
  (exists e, burn p text None w = (Raise e, w)).
Proof.
  run_burn.
  repeat (case_match; simplify_eq/=);
    first [ left; eexists; reflexivity
          | right; left; eexists; split; [reflexivity|constructor]
          | right; right; eexists; reflexivity
          | idtac ].
Qed.

(** The call on [p] reads the file system at [p] only. *)
Lemma burn_local (p text : string) (w1 w2 : world) :
  fs w1 !! p = fs w2 !! p ->
  (burn p text None w1).1 = (burn p text None w2).1.
Proof.
  intros Heq. run_burn. rewrite Heq.
  repeat (case_match; simplify_eq/=); reflexivity.
Qed.

Lemma burn_ok_local (p text : string) (w1 w2 : world) :
  fs w1 !! p = fs w2 !! p -> burn_ok text w1 p = burn_ok text w2 p.
Proof. intros Heq. unfold burn_ok. by rewrite (burn_local p text w1 w2). Qed.

Lemma burn_each_spec (text : string) (w0 : world) (files : list string) :
  NoDup files ->
  forall (w : world) (n : nat),
    (forall p, p ∈ files -> fs w !! p = fs w0 !! p) ->
    exists w' reports,
      burn_each rnd undefined_cast pixel_array truetype_loads glyph_mask
                files text n w =
        (Return (n + length (filter (fun p => burn_ok text w0 p = true) files))%nat,
         w') /\
      stdout w' = stdout w ++ reports /\
      Forall2 reports_on files reports /\
      (forall q, q ∉ files -> fs w' !! q = fs w !! q) /\
      (forall p, p ∈ files -> burn_ok text w0 p = false ->
                 fs w' !! p = fs w0 !! p).
Proof.
  induction 1 as [|p files Hp Hnd IH]; intros w n Hsame.
  - exists w, []. simpl. rewrite Nat.add_0_r, app_nil_r.
    split_and!; [done | done | constructor | done |].
    intros p Hin. by apply elem_of_nil in Hin.
  - assert (Hok : burn_ok text w p = burn_ok text w0 p).
    { apply burn_ok_local, Hsame. left. }
    cbn [burn_each]. unfold mbind at 1, M_bind at 1, bind at 1.
    unfold try_except, mbind, M_bind, bind.
    unfold burn_ok in Hok at 1.
    destruct (burn_cases p text w) as [(ds' & E)|[(l & E & Hl)|(e & E)]];
      rewrite E in *; cbn [fst] in Hok; cbn [mret M_ret ret print].
    + (* written *)
      set (w1 := mk_world _ _).
      destruct (IH w1 (S n)) as (w' & reports & Erun & Hout & Hrep & Hfr & Hfail).
      { intros q Hq. subst w1. cbn [fs]. rewrite lookup_insert_ne.
        - apply Hsame. by right.
        - intros ->. done. }
      exists w', (Burned (basename p) :: reports).
      rewrite filter_cons_True by done. cbn [length].
      rewrite Nat.add_succ_r. split; [exact Erun|].
      split; [rewrite Hout; subst w1; cbn [stdout]; by rewrite <- app_assoc|].
      split; [constructor; [constructor|done]|].
      split.
      * intros q Hq. rewrite Hfr by (intros ?; apply Hq; by right).
        subst w1. cbn [fs]. apply lookup_insert_ne. intros ->. apply Hq. left.
      * intros q Hq Hbad. apply elem_of_cons in Hq as [->|Hq];
          [congruence|]. by apply Hfail.
    + (* skipped *)
      set (w1 := mk_world _ _).
      destruct (IH w1 n) as (w' & reports & Erun & Hout & Hrep & Hfr & Hfail).
      { intros q Hq. subst w1. cbn [fs]. apply Hsame. by right. }
      exists w', (l :: reports).
      rewrite filter_cons_False by (rewrite <- Hok; done).
      split; [exact Erun|].
      split; [rewrite Hout; subst w1; cbn [stdout]; by rewrite <- app_assoc|].
      split; [by constructor|].
      split.
      * intros q Hq. rewrite Hfr by (intros ?; apply Hq; by right). done.
      * intros q Hq Hbad. apply elem_of_cons in Hq as [->|Hq];
          [|by apply Hfail].
        rewrite Hfr by done. subst w1. cbn [fs]. apply Hsame. left.
    + (* raised *)
      set (w1 := mk_world _ _).
      destruct (IH w1 n) as (w' & reports & Erun & Hout & Hrep & Hfr & Hfail).
      { intros q Hq. subst w1. cbn [fs]. apply Hsame. by right. }
      exists w', (ErrorProcessing (basename p) e :: reports).
      rewrite filter_cons_False by (rewrite <- Hok; done).
      split; [exact Erun|].
      split; [rewrite Hout; subst w1; cbn [stdout]; by rewrite <- app_assoc|].
      split; [constructor; [constructor|done]|].
      split.
      * intros q Hq. rewrite Hfr by (intros ?; apply Hq; by right). done.
      * intros q Hq Hbad. apply elem_of_cons in Hq as [->|Hq];
          [|by apply Hfail].
        rewrite Hfr by done. subst w1. cbn [fs]. apply Hsame. left.
Qed.

Lemma filter_split_length {A} (f : A -> bool) (l : list A) :
  (length (filter (fun x => f x = true) l) =
   length l - length (filter (fun x => f x = false) l))%nat.
Proof.
  induction l as [|x l IH]; [done|].
  assert (length (filter (fun x => f x = false) l) <= length l)%nat
    by apply length_filter.
  destruct (f x) eqn:E.
  - rewrite filter_cons_True, filter_cons_False by congruence.
    simpl. lia.
  - rewrite filter_cons_False, filter_cons_True by congruence.
    simpl. lia.
Qed.


(** *** The accepted path *)

Definition helvetica : string := "/System/Library/Fonts/Helvetica.ttc".

(** The font with which lines 59-65 end, for an image of the given height. *)
Definition chosen_font (height : nat) : font :=
  let font_size := Z.max 20 (Z.of_nat height / 20) in
  if truetype_loads helvetica font_size then TrueType helvetica font_size
  else DefaultFont.

(** [output_path if output_path else dicom_path] *)
Definition output_of (output_path : option string) (dicom_path : string) :
    string :=
  match output_path with
  | Some (String c o) => String c o
  | _ => dicom_path
  end.

Lemma choose_font_run (img : Image) (w : world) :
  choose_font truetype_loads img w = (Return (chosen_font (im_height img)), w).
Proof.
  unfold choose_font, chosen_font, try_except, truetype, load_default,
    helvetica.
  by destruct (truetype_loads _ _).
Qed.

Lemma burn_accepted_run
    (w : world) (dicom_path text : string) (output_path : option string)
    (ds : Dataset) (raw a : ndarray) (m : mode) (img : Image) :
  fs w !! dicom_path = Some (DicomFile ds) ->
  is_Some (PixelData ds) ->
  pixel_array ds = Some raw ->
  normalize rnd undefined_cast raw = Some a ->
  (length (nd_shape a) = 2%nat /\ m = L \/
   length (nd_shape a) = 3%nat /\ m = RGB) ->
  fromarray a m w = (Return img, w) ->
  burn dicom_path text output_path w =
    (Return true,
     mk_world
       (<[output_of output_path dicom_path :=
            DicomFile
              (mk_Dataset
                 (Some (im_bytes (draw_text glyph_mask img position text 255
                                            (chosen_font (im_height img)))))
                 (elements ds))]> (fs w))
       (stdout w ++ [Burned (basename dicom_path)])).
Proof.
  intros Hfile [bytes Hpix] Hraw Hnorm Hshape Himg.
  unfold burn_text_into_dicom, mbind, M_bind, bind, dcmread, lift_option,
    mret, M_ret, ret.
  rewrite Hfile, Hpix, Hraw. cbn beta iota. rewrite Hnorm. cbn beta iota.
  destruct Hshape as [[-> ->]|[-> ->]];
    rewrite Himg, choose_font_run; reflexivity.
Qed.

(** C8, amended. For every accepted image, in the grayscale and in the
    color layout alike, the text is drawn at the offset (10, 10) with the
    one ink 255, in the font lines 59-65 end with: Helvetica at size
    max(20, height // 20) when that font loads, and Pillow's default font,
    which takes no size, when it does not. *)
Theorem text_overlay_parameters
    (w : world) (dicom_path text : string) (output_path : option string)
    (ds : Dataset) (raw a : ndarray) (m : mode) (img : Image) :
  let font_size := Z.max 20 (Z.of_nat (im_height img) / 20) in
  let f := if truetype_loads "/System/Library/Fonts/Helvetica.ttc" font_size
           then TrueType "/System/Library/Fonts/Helvetica.ttc" font_size
           else DefaultFont in
  fs w !! dicom_path = Some (DicomFile ds) ->
  is_Some (PixelData ds) ->
  pixel_array ds = Some raw ->
  normalize rnd undefined_cast raw = Some a ->
  (length (nd_shape a) = 2%nat /\ m = L \/
   length (nd_shape a) = 3%nat /\ m = RGB) ->
  fromarray a m w = (Return img, w) ->
  choose_font truetype_loads img w = (Return f, w) /\
  burn dicom_path text output_path w =
    (Return true,
     mk_world
       (<[output_of output_path dicom_path :=
            DicomFile
              (mk_Dataset
                 (Some (im_bytes (draw_text glyph_mask img (10, 10) text 255 f)))
                 (elements ds))]> (fs w))
       (stdout w ++ [Burned (basename dicom_path)])).
Proof.
  intros font_size f Hfile Hpix Hraw Hnorm Hshape Himg. split.
  - apply choose_font_run.
  - by apply (burn_accepted_run w dicom_path text output_path ds raw a m img).
Qed.

(** *** Grayscale buffers within the 8-bit range *)

Lemma blend_uncovered (old ink : Z) : 0 <= old < 256 -> blend 0 old ink = old.
Proof.
  intros H. unfold blend. rewrite !Z.shiftr_div_pow2 by lia.
  change (2 ^ 8) with 256. rewrite Z.mul_0_r, Z.add_0_r, Z.sub_0_r.
  Z.div_mod_to_equations. lia.
Qed.

Lemma normalize_low (a : ndarray) (mx : Z) :
  arr_max (nd_data a) = Some mx -> mx <= 255 ->
  normalize rnd undefined_cast a =
    Some (mk_ndarray UInt8 (nd_shape a) (map int_astype_uint8 (nd_data a))).
Proof.
  intros Hmax Hle. unfold normalize. rewrite Hmax.
  destruct (nd_data a) as [|x r]; [done|]. cbn [arr_min].
  destruct (255 <? mx) eqn:E; [lia|done].
Qed.

Lemma fromarray_grayscale (a : ndarray) (h wd : nat) (w : world) :
  nd_shape a = [h; wd] -> length (nd_data a) = (h * wd)%nat ->
  fromarray a L w = (Return (mk_Image L wd h (nd_data a)), w).
Proof.
  intros Hshape Hlen. unfold fromarray. rewrite Hshape. cbn [channels].
  rewrite Nat.mul_1_r, (Nat.mul_comm wd h), <- Hlen, Nat.ltb_irrefl.
  by rewrite take_ge.
Qed.


(** X5. A buffer of one dimension, or of four and more, is rejected: the call
    prints the shape, returns [False] and writes nothing. *)
Lemma burn_unsupported_dimensions
    (w : world) (dicom_path text : string) (output_path : option string)
    (ds : Dataset) (raw a : ndarray) :
  fs w !! dicom_path = Some (DicomFile ds) ->
  is_Some (PixelData ds) ->
  pixel_array ds = Some raw ->
  normalize rnd undefined_cast raw = Some a ->
  length (nd_shape a) <> 2%nat -> length (nd_shape a) <> 3%nat ->
  burn dicom_path text output_path w =
    (Return false,
     mk_world (fs w)
              (stdout w ++ [SkipUnsupportedShape dicom_path (nd_shape a)])).
Proof.
  intros Hfile [bytes Hpix] Hraw Hnorm H2 H3.
  unfold burn_text_into_dicom, mbind, M_bind, bind, dcmread, lift_option,
    mret, M_ret, ret.
  rewrite Hfile, Hpix, Hraw. cbn beta iota. rewrite Hnorm. cbn beta iota.
  destruct (length (nd_shape a)) as [|[|[|[|n]]]]; done.
Qed.

End BurnProps.

(** ** Concrete runs *)

(** An environment: exact arithmetic for the rounding, no TrueType font
    installed, a decoder that reads the bytes as 8-bit samples of the shape
    given in the data set, and a text that covers the 2 x 2 square at the
    anchor. *)
Definition exact (q : Q) : Q := q.
Definition cast_zero (f : float64) : Z := 0.
Definition no_truetype (path : string) (size : Z) : bool := false.
Definition square_mask (f : font) (text : string) (dx dy : Z) : Z :=
  if (0 <=? dx) && (dx <? 2) && (0 <=? dy) && (dy <? 2) then 255 else 0.

Definition decode_shape (shape : list nat) (ds : Dataset) : option ndarray :=
  match PixelData ds with
  | Some bytes => Some (mk_ndarray UInt8 shape bytes)
  | None => None
  end.

Definition gray_file : Dataset := mk_Dataset (Some (repeat 7 240)) [].
Definition bare_file : Dataset := mk_Dataset None [].

Definition sample_world : world :=
  mk_world (<["scans" := Directory]>
            (<["scans/a.dcm" := DicomFile gray_file]>
             (<["scans/b.dcm" := DicomFile bare_file]>
              (<["scans/c.dcm" := OtherFile]>
               (<["scans/notes.txt" := OtherFile]> ∅))))) [].


Local Abbreviation sample_burn :=
  (burn_text_into_dicom exact cast_zero (decode_shape [12%nat; 20%nat])
     no_truetype square_mask).

Lemma sample_listing :
  dcm_listing "scans" sample_world =
    ["scans/c.dcm"; "scans/a.dcm"; "scans/b.dcm"].
Proof. vm_compute. reflexivity. Qed.

Lemma burn_without_pixel_data_witness :
  sample_burn "scans/b.dcm" "PHI" None sample_world =
    (Return false,
     mk_world (fs sample_world)
              (stdout sample_world ++ [SkipNoPixelData "scans/b.dcm"])).
Proof.
  apply (burn_without_pixel_data exact cast_zero (decode_shape [12%nat; 20%nat])
           no_truetype square_mask sample_world "scans/b.dcm" "PHI" None
           bare_file); reflexivity.
Defined.

Definition notes_world : world :=
  mk_world (<["scans" := Directory]>
            (<["scans/notes.txt" := OtherFile]> ∅)) [].



Definition gray_array : ndarray :=
  mk_ndarray UInt8 [12%nat; 20%nat] (repeat 7 240).
Definition gray_image : Image := mk_Image L 20 12 (repeat 7 240).

Lemma normalize_gray_array :
  normalize exact cast_zero gray_array = Some gray_array.
Proof. vm_compute. reflexivity. Qed.

Lemma text_overlay_parameters_witness :
  choose_font no_truetype gray_image sample_world =
    (Return DefaultFont, sample_world) /\
  sample_burn "scans/a.dcm" "PHI" None sample_world =
    (Return true,
     mk_world
       (<["scans/a.dcm" :=
            DicomFile
              (mk_Dataset
                 (Some (im_bytes (draw_text square_mask gray_image (10, 10)
                                            "PHI" 255 DefaultFont)))
                 [])]> (fs sample_world))
       (stdout sample_world ++ [Burned "a.dcm"])).
Proof.
  apply (text_overlay_parameters exact cast_zero
           (decode_shape [12%nat; 20%nat]) no_truetype square_mask
           sample_world "scans/a.dcm" "PHI" None gray_file gray_array
           gray_array L gray_image).
  - reflexivity.
  - eexists. reflexivity.
  - reflexivity.
  - exact normalize_gray_array.
  - left. split; reflexivity.
  - reflexivity.
Defined.

(** C8, counterexample. Where the Helvetica file cannot be loaded (any
    machine without /System/Library/Fonts), lines 63-65 fall back to the
    default font: the text on a 20 x 12 image is not rasterized at size
    max(20, 12 // 20) = 20 but with [ImageFont.load_default()], which is
    given no size. *)
Lemma default_font_without_helvetica :
  choose_font no_truetype gray_image sample_world =
    (Return DefaultFont, sample_world) /\
  forall path, DefaultFont <> TrueType path (Z.max 20 (12 / 20)).
Proof. split; [reflexivity | discriminate]. Qed.


(** *** A multi-frame grayscale file *)

Definition frames_file : Dataset := mk_Dataset (Some (repeat 7 32)) [].
Definition frames_array : ndarray :=
  mk_ndarray UInt8 [2%nat; 4%nat; 4%nat] (repeat 7 32).
Definition frames_world : world :=
  mk_world (<["scans/m.dcm" := DicomFile frames_file]> ∅) [].

(** C4. A buffer of shape (2, 4, 4), two grayscale frames of 4 x 4, is
    three-dimensional but not three-channel. Line 48 tests the number of
    dimensions only, so the buffer is taken as RGB: the call does not print
    the unsupported-shape line, it returns [True], and it overwrites the
    file with the 24 bytes of a 4 x 2 RGB image in place of the 32 samples. *)
Theorem multiframe_taken_as_rgb :
  length (nd_shape frames_array) = 3%nat /\
  nth 2 (nd_shape frames_array) 0%nat <> 3%nat /\
  exists out,
    burn_text_into_dicom exact cast_zero
        (decode_shape [2%nat; 4%nat; 4%nat]) no_truetype square_mask
        "scans/m.dcm" "PHI" None frames_world =
      (Return true,
       mk_world
         (<["scans/m.dcm" := DicomFile (mk_Dataset (Some out) [])]>
            (fs frames_world))
         [Burned "m.dcm"]) /\
    length out = 24%nat /\
    fs frames_world !! "scans/m.dcm" = Some (DicomFile frames_file).
Proof.
  split; [reflexivity|]. split; [discriminate|].
  eexists. split; [|split].
  - apply (burn_accepted_run exact cast_zero
             (decode_shape [2%nat; 4%nat; 4%nat]) no_truetype square_mask
             frames_world "scans/m.dcm" "PHI" None frames_file frames_array
             frames_array RGB (mk_Image RGB 4 2 (repeat 7 24))).
    + reflexivity.
    + eexists. reflexivity.
    + reflexivity.
    + vm_compute. reflexivity.
    + right. split; reflexivity.
    + reflexivity.
  - reflexivity.
  - reflexivity.
Qed.

(** ** The rescaling of buffers above the 8-bit range *)

Lemma wrap_in_range (t : dtype) (v : Z) : lo t <= v <= hi t -> wrap t v = v.
Proof.
  intros H. unfold wrap. rewrite Z.mod_small; [lia|].
  unfold lo, hi in *. destruct t; cbn in *; lia.
Qed.

Lemma foldr_max_ge (x : Z) (r : list Z) (y : Z) :
  y ∈ x :: r -> y <= foldr Z.max x r.
Proof.
  induction r as [|z r IH]; intros Hy.
  - apply list_elem_of_singleton in Hy as ->. simpl. lia.
  - simpl. apply elem_of_cons in Hy as [->|Hy].
    + assert (x <= foldr Z.max x r) by (apply IH; left). lia.
    + apply elem_of_cons in Hy as [->|Hy]; [lia|].
      assert (y <= foldr Z.max x r) by (apply IH; by right). lia.
Qed.

Lemma foldr_min_le (x : Z) (r : list Z) (y : Z) :
  y ∈ x :: r -> foldr Z.min x r <= y.
Proof.
  induction r as [|z r IH]; intros Hy.
  - apply list_elem_of_singleton in Hy as ->. simpl. lia.
  - simpl. apply elem_of_cons in Hy as [->|Hy].
    + assert (foldr Z.min x r <= x) by (apply IH; left). lia.
    + apply elem_of_cons in Hy as [->|Hy]; [lia|].
      assert (foldr Z.min x r <= y) by (apply IH; by right). lia.
Qed.

Lemma arr_max_ge (l : list Z) (mx y : Z) :
  arr_max l = Some mx -> y ∈ l -> y <= mx.
Proof.
  destruct l as [|x r]; [done|]. intros [= <-]. apply foldr_max_ge.
Qed.

Lemma arr_min_le (l : list Z) (mn y : Z) :
  arr_min l = Some mn -> y ∈ l -> mn <= y.
Proof.
  destruct l as [|x r]; [done|]. intros [= <-]. apply foldr_min_le.
Qed.

Section Rescale.

Variable rnd : Q -> Q.
Variable undefined_cast : float64 -> Z.

(** What the argument needs of the rounding to float64: it is monotone,
    and 0, 1 and 255 are floats. *)
Hypothesis rnd_monotone : forall x y : Q, (x <= y)%Q -> (rnd x <= rnd y)%Q.
Hypothesis rnd_0 : (rnd 0 == 0)%Q.
Hypothesis rnd_1 : (rnd 1 == 1)%Q.
Hypothesis rnd_255 : (rnd 255 == 255)%Q.

(** The float64 value [a / d * 255] for integers [a] and [d]. *)
Definition scaled (a d : Z) : Q := rnd (rnd (inject_Z a / inject_Z d) * 255).

Lemma ratio_bounds (a d : Z) :
  0 <= a <= d -> 0 < d ->
  (0 <= inject_Z a / inject_Z d <= 1)%Q.
Proof.
  intros Ha Hd.
  assert (Hd' : (0 < inject_Z d)%Q) by (change 0%Q with (inject_Z 0); by rewrite <- Zlt_Qlt).
  split.
  - apply Qle_shift_div_l; [done|]. rewrite Qmult_0_l.
    change 0%Q with (inject_Z 0). rewrite <- Zle_Qle. lia.
  - apply Qle_shift_div_r; [done|]. rewrite Qmult_1_l.
    rewrite <- Zle_Qle. lia.
Qed.

Lemma ratio_monotone (a b d : Z) :
  a <= b -> 0 < d -> (inject_Z a / inject_Z d <= inject_Z b / inject_Z d)%Q.
Proof.
  intros Hab Hd.
  assert (Hd' : (0 < inject_Z d)%Q) by (change 0%Q with (inject_Z 0); by rewrite <- Zlt_Qlt).
  apply Qmult_le_compat_r.
  - rewrite <- Zle_Qle. lia.
  - apply Qlt_le_weak, Qinv_lt_0_compat, Hd'.
Qed.

Lemma scaled_bounds (a d : Z) :
  0 <= a <= d -> 0 < d -> (0 <= scaled a d <= 255)%Q.
Proof.
  intros Ha Hd. destruct (ratio_bounds a d Ha Hd) as [H0 H1].
  apply rnd_monotone in H0, H1.
  pose proof rnd_0 as E0. pose proof rnd_1 as E1. pose proof rnd_255 as E255.
  unfold scaled. split.
  - apply Qle_trans with (rnd 0); [lra|]. apply rnd_monotone. lra.
  - apply Qle_trans with (rnd 255); [|lra]. apply rnd_monotone. lra.
Qed.

Lemma scaled_monotone (a b d : Z) :
  a <= b -> 0 < d -> (scaled a d <= scaled b d)%Q.
Proof.
  intros Hab Hd. unfold scaled. apply rnd_monotone.
  apply Qmult_le_compat_r; [|done].
  apply rnd_monotone. by apply ratio_monotone.
Qed.

Lemma scaled_low (d : Z) : 0 < d -> (scaled 0 d == 0)%Q.
Proof.
  intros Hd. apply Qle_antisym; [|apply scaled_bounds; lia].
  pose proof rnd_0 as E0.
  assert (H : (rnd (inject_Z 0 / inject_Z d) <= rnd 0)%Q).
  { apply rnd_monotone. unfold Qdiv. change (inject_Z 0) with 0%Q.
    rewrite Qmult_0_l. lra. }
  unfold scaled. apply Qle_trans with (rnd 0); [|lra].
  apply rnd_monotone. lra.
Qed.

Lemma scaled_high (d : Z) : 0 < d -> (scaled d d == 255)%Q.
Proof.
  intros Hd. apply Qle_antisym; [apply scaled_bounds; lia|].
  pose proof rnd_1 as E1. pose proof rnd_255 as E255.
  assert (H : (rnd 1 <= rnd (inject_Z d / inject_Z d))%Q).
  { apply rnd_monotone. apply Qle_shift_div_l.
    - change 0%Q with (inject_Z 0). rewrite <- Zlt_Qlt. lia.
    - lra. }
  unfold scaled. apply Qle_trans with (rnd 255); [lra|].
  apply rnd_monotone. lra.
Qed.

Lemma rescale_floor (t : dtype) (mx mn x : Z) :
  mn <= x <= mx -> mn < mx -> mx - mn <= hi t ->
  rescale rnd undefined_cast t mx mn x = Qfloor (scaled (x - mn) (mx - mn)).
Proof.
  intros Hx Hlt Hfit.
  assert (Hlo : lo t <= 0) by (destruct t; cbn; lia).
  destruct (scaled_bounds (x - mn) (mx - mn)) as [H0 H255]; [lia|lia|].
  unfold rescale, scale_sample, divisor.
  rewrite !wrap_in_range by lia. unfold true_divide.
  destruct (mx - mn =? 0) eqn:E; [lia|]. cbn [fmul_int float_astype_uint8].
  change (rnd (rnd (inject_Z (x - mn) / inject_Z (mx - mn)) * inject_Z 255))
    with (scaled (x - mn) (mx - mn)).
  assert (Hc : castable_uint8 (scaled (x - mn) (mx - mn)) = true).
  { unfold castable_uint8, Qlt_bool. apply andb_true_intro. split.
    - destruct (Qle_bool _ (-1)) eqn:F; [|done].
      apply Qle_bool_iff in F. lra.
    - destruct (Qle_bool 256 _) eqn:F; [|done].
      apply Qle_bool_iff in F. lra. }
  rewrite Hc. unfold Qtrunc.
  destruct (Qle_bool 0 _) eqn:F; [done|].
  assert (Qle_bool 0 (scaled (x - mn) (mx - mn)) = true)
    by (by apply Qle_bool_iff).
  congruence.
Qed.


End Rescale.

Definition wide_data : list Z := [0; 300; 1000].


Definition flat_array : ndarray :=
  mk_ndarray UInt16 [1%nat; 2%nat] [1000; 1000].


(** * Further properties of the text-burning routine *)

Section BurnExtras.

Variable rnd : Q -> Q.
Variable undefined_cast : float64 -> Z.
Variable pixel_array : Dataset -> option ndarray.
Variable truetype_loads : string -> Z -> bool.
Variable glyph_mask : font -> string -> Z -> Z -> Z.

Local Abbreviation burn' :=
  (burn_text_into_dicom rnd undefined_cast pixel_array truetype_loads
     glyph_mask).
Local Abbreviation process' :=
  (process_directory rnd undefined_cast pixel_array truetype_loads
     glyph_mask).

Ltac unfold_burn :=
  unfold burn_text_into_dicom, mbind, M_bind, bind, dcmread, lift_option,
    print, save_as, fromarray, choose_font, try_except, truetype,
    load_default, mret, M_ret, ret, raise.



(** [output_path=""] is falsy: the call then overwrites the input, exactly
    as with [output_path=None]. *)
Theorem burn_empty_output_path (w : world) (dicom_path text : string) :
  burn' dicom_path text (Some "") w = burn' dicom_path text None w.
Proof using Type. reflexivity. Qed.

(** X4. A path that is not a readable DICOM file (missing, a directory, or a
    file of another kind): [dcmread] raises, nothing is printed and nothing
    is written. *)
Theorem burn_unreadable
    (w : world) (dicom_path text : string) (output_path : option string) :
  (forall ds, fs w !! dicom_path <> Some (DicomFile ds)) ->
  exists e, burn' dicom_path text output_path w = (Raise e, w).
Proof using Type.
  intros Hno. unfold_burn.
  destruct (fs w !! dicom_path) as [[|ds|]|] eqn:E;
    [by eexists | by destruct (Hno ds) | by eexists | by eexists].
Qed.


(** *** The normalized buffer *)

Lemma Qtrunc_byte (q : Q) : castable_uint8 q = true -> 0 <= Qtrunc q <= 255.
Proof using Type.
  clear rnd undefined_cast pixel_array truetype_loads glyph_mask.
  unfold castable_uint8, Qlt_bool. intros [H1 H2]%andb_prop.
  assert (Hlo : (-1 < q)%Q).
  { destruct (Qle_bool q (-1)) eqn:F; [done|].
    apply Qnot_le_lt. intros Hle. apply Qle_bool_iff in Hle. congruence. }
  assert (Hhi : (q < 256)%Q).
  { destruct (Qle_bool 256 q) eqn:F; [done|].
    apply Qnot_le_lt. intros Hle. apply Qle_bool_iff in Hle. congruence. }
  unfold Qtrunc. destruct (Qle_bool 0 q) eqn:F.
  - apply Qle_bool_iff in F. split.
    + apply Qfloor_resp_le in F. change 0%Q with (inject_Z 0) in F.
      by rewrite Qfloor_Z in F.
    + pose proof (Qfloor_le q) as Hf.
      assert (Hz : (inject_Z (Qfloor q) < inject_Z 256)%Q)
        by (change (inject_Z 256) with 256%Q; lra).
      rewrite <- Zlt_Qlt in Hz. lia.
  - assert (Hneg : (q < 0)%Q).
    { apply Qnot_le_lt. intros Hle. apply Qle_bool_iff in Hle. congruence. }
    pose proof (Qle_ceiling q) as Hc. pose proof (Qceiling_lt q) as Hc'.
    assert (Hz1 : (inject_Z (Qceiling q - 1) < inject_Z 0)%Q)
      by (change (inject_Z 0) with 0%Q; lra).
    assert (Hz2 : (inject_Z (-1) < inject_Z (Qceiling q))%Q)
      by (change (inject_Z (-1)) with (-1)%Q; lra).
    rewrite <- Zlt_Qlt in Hz1, Hz2. lia.
Qed.

Lemma float_astype_uint8_byte (f : float64) :
  0 <= float_astype_uint8 undefined_cast f <= 255.
Proof using Type.
  assert (Hm : forall z, 0 <= z mod 256 <= 255)
    by (intros z; pose proof (Z.mod_pos_bound z 256); lia).
  destruct f as [|s|q]; cbn [float_astype_uint8]; try apply Hm.
  destruct (castable_uint8 q) eqn:E; [by apply Qtrunc_byte | apply Hm].
Qed.

(** X6. Normalization fails exactly on a buffer without samples (where [max()]
    raises). On every other buffer, whatever its dtype and values, it yields
    a uint8 buffer of the same shape and the same number of samples, each
    within 0..255. *)
Theorem normalize_uint8 (a : ndarray) :
  match nd_data a with
  | [] => normalize rnd undefined_cast a = None
  | _ :: _ =>
      exists a', normalize rnd undefined_cast a = Some a' /\
                 nd_dtype a' = UInt8 /\
                 nd_shape a' = nd_shape a /\
                 length (nd_data a') = length (nd_data a) /\
                 Forall (fun v => 0 <= v <= 255) (nd_data a')
  end.
Proof using Type.
  unfold normalize. destruct (nd_data a) as [|x r] eqn:E; [done|].
  cbn [arr_max arr_min]. eexists. split; [reflexivity|].
  cbn [nd_dtype nd_shape nd_data]. split; [done|]. split; [done|].
  destruct (255 <? _).
  - split; [by rewrite length_map|]. apply Forall_forall.
    intros v [y [<- _]]%list_elem_of_In%in_map_iff. apply float_astype_uint8_byte.
  - split; [by rewrite length_map|]. apply Forall_forall.
    intros v [y [<- _]]%list_elem_of_In%in_map_iff. unfold int_astype_uint8.
    pose proof (Z.mod_pos_bound y 256). lia.
Qed.

(** *** Drawing *)

Lemma blend_byte (mask in1 in2 : Z) :
  0 <= mask <= 255 -> 0 <= in1 <= 255 -> 0 <= in2 <= 255 ->
  0 <= blend mask in1 in2 <= 255.
Proof using Type.
  clear rnd undefined_cast pixel_array truetype_loads glyph_mask.
  intros Hm H1 H2. unfold blend.
  assert (Ha : 0 <= in1 * (255 - mask) + in2 * mask <= 65025).
  { assert (0 <= in1 * (255 - mask) <= 255 * (255 - mask))
      by (split; [apply Z.mul_nonneg_nonneg | apply Z.mul_le_mono_nonneg_r];
          lia).
    assert (0 <= in2 * mask <= 255 * mask)
      by (split; [apply Z.mul_nonneg_nonneg | apply Z.mul_le_mono_nonneg_r];
          lia).
    lia. }
  set (a := in1 * (255 - mask) + in2 * mask) in *. clearbody a.
  rewrite !Z.shiftr_div_pow2 by lia. change (2 ^ 8) with 256.
  Z.div_mod_to_equations. lia.
Qed.

Lemma blend_covered (old ink : Z) : 0 <= ink <= 255 -> blend 255 old ink = ink.
Proof using Type.
  clear rnd undefined_cast pixel_array truetype_loads glyph_mask.
  intros H. unfold blend. rewrite Z.sub_diag, Z.mul_0_r, Z.add_0_l.
  rewrite !Z.shiftr_div_pow2 by lia. change (2 ^ 8) with 256.
  Z.div_mod_to_equations. lia.
Qed.

Lemma getink_byte (m : mode) (fill : Z) (k : nat) :
  0 <= nth k (getink m fill) 0 <= 255.
Proof using Type.
  clear rnd undefined_cast pixel_array truetype_loads glyph_mask.
  assert (Hl : forall z, 0 <= Z.land z 255 <= 255).
  { intros z. change 255 with (Z.ones 8) at 1 2. rewrite Z.land_ones by lia.
    change (2 ^ 8) with 256. pose proof (Z.mod_pos_bound z 256). lia. }
  destruct m; cbn [getink].
  - destruct k as [|[|k]]; cbn [nth]; lia.
  - destruct k as [|[|[|[|k]]]]; cbn [nth]; try apply Hl; lia.
Qed.

(** X7. Drawing the text keeps the size of the buffer, and turns a buffer of
    bytes into a buffer of bytes, in either layout and for any fill. *)
Theorem draw_text_bytes
    (img : Image) (pos : Z * Z) (text : string) (fill : Z) (f : font) :
  Forall (fun v => 0 <= v <= 255) (im_bytes img) ->
  let out := draw_text glyph_mask img pos text fill f in
  im_mode out = im_mode img /\
  im_width out = im_width img /\ im_height out = im_height img /\
  length (im_bytes out) = length (im_bytes img) /\
  Forall (fun v => 0 <= v <= 255) (im_bytes out).
Proof using Type.
  intros Hin out. subst out. unfold draw_text. cbn [im_mode im_width im_height im_bytes].
  split; [done|]. split; [done|]. split; [done|].
  split; [apply length_imap|].
  apply Forall_lookup. intros i v Hv.
  rewrite list_lookup_imap in Hv.
  destruct (im_bytes img !! i) as [old|] eqn:Hold; [|done].
  cbn in Hv. injection Hv as <-.
  apply blend_byte.
  - unfold coverage_at.
    match goal with |- 0 <= ?z mod 256 <= 255 =>
      pose proof (Z.mod_pos_bound z 256); lia end.
  - by apply (Forall_lookup_1 _ _ _ _ Hin Hold).
  - apply getink_byte.
Qed.

Lemma normalize_bytes (raw a : ndarray) :
  normalize rnd undefined_cast raw = Some a ->
  Forall (fun v => 0 <= v <= 255) (nd_data a).
Proof using Type.
  intros Hn. pose proof (normalize_uint8 raw) as H.
  destruct (nd_data raw); [congruence|].
  destruct H as (a' & Ha' & _ & _ & _ & Hb). congruence.
Qed.

Lemma fromarray_bytes (a : ndarray) (m : mode) (img : Image) (w w' : world) :
  fromarray a m w = (Return img, w') ->
  w' = w /\ im_mode img = m /\
  exists n, im_bytes img = take n (nd_data a).
Proof using Type.
  unfold fromarray, raise, ret.
  destruct (nd_shape a) as [|h [|wd rest]]; try done.
  destruct (_ <? _)%nat; [done|]. intros [= <- <-]. eauto.
Qed.

(** X8. Whenever the call returns [True], the path it wrote holds the data set
    it read with only [PixelData] replaced, and the new [PixelData] is a
    buffer of 8-bit samples. *)
Theorem burn_success_stores_bytes
    (w w' : world) (dicom_path text : string) (output_path : option string) :
  burn' dicom_path text output_path w = (Return true, w') ->
  exists ds bytes,
    fs w !! dicom_path = Some (DicomFile ds) /\
    fs w' !! output_of output_path dicom_path =
      Some (DicomFile (mk_Dataset (Some bytes) (elements ds))) /\
    Forall (fun v => 0 <= v <= 255) bytes /\
    stdout w' = stdout w ++ [Burned (basename dicom_path)].
Proof using Type.
  unfold burn_text_into_dicom, mbind, M_bind, bind, dcmread, lift_option,
    mret, M_ret, ret, raise, print, save_as.
  destruct (fs w !! dicom_path) as [[|ds|]|] eqn:Hfile; try done.
  destruct (PixelData ds) eqn:Hpix; [|done].
  destruct (pixel_array ds) as [raw|] eqn:Hraw; [|done].
  destruct (normalize rnd undefined_cast raw) as [a|] eqn:Hnorm; [|done].
  assert (Hfin : forall m img w1,
    fromarray a m w = (Return img, w1) ->
    forall f, Forall (fun v => 0 <= v <= 255)
                (im_bytes (draw_text glyph_mask img position text 255 f))).
  { intros m img w1 Himg f.
    apply fromarray_bytes in Himg as (_ & _ & n & Hb).
    apply draw_text_bytes. rewrite Hb. apply Forall_take.
    by apply (normalize_bytes raw). }
  destruct (length (nd_shape a)) as [|[|[|[|n]]]]; try done.
  - destruct (fromarray a L w) as [[img|e] w1] eqn:Himg; [|done].
    pose proof (Hfin _ _ _ Himg) as Hb.
    apply fromarray_bytes in Himg as (-> & _).
    rewrite choose_font_run. intros [= <-]. cbn [fs stdout].
    eexists ds, _. split; [done|]. split; [apply lookup_insert_eq|].
    split; [apply Hb|done].
  - destruct (fromarray a RGB w) as [[img|e] w1] eqn:Himg; [|done].
    pose proof (Hfin _ _ _ Himg) as Hb.
    apply fromarray_bytes in Himg as (-> & _).
    rewrite choose_font_run. intros [= <-]. cbn [fs stdout].
    eexists ds, _. split; [done|]. split; [apply lookup_insert_eq|].
    split; [apply Hb|done].
Qed.

Lemma fromarray_color (a : ndarray) (h wd : nat) (w : world) :
  nd_shape a = [h; wd; 3%nat] -> length (nd_data a) = (h * wd * 3)%nat ->
  fromarray a RGB w = (Return (mk_Image RGB wd h (nd_data a)), w).
Proof using Type.
  intros Hshape Hlen. unfold fromarray. rewrite Hshape. cbn [channels].
  rewrite (Nat.mul_comm wd h), <- Hlen, Nat.ltb_irrefl.
  by rewrite take_ge.
Qed.

(** X9. The color layout. For a buffer of shape (h, w, 3) whose maximum is at
    most 255 the call succeeds and stores as many samples; sample [i]
    belongs to channel [i mod 3] of pixel [i / 3], and is the input sample
    truncated to 8 bits blended with that channel of the ink under the
    coverage of the text at the pixel. The integer fill 255 is the ink
    (255, 0, 0): a fully covered pixel becomes red, not white, and a pixel
    the text does not cover keeps its three samples. *)
Theorem color_frame
    (w : world) (dicom_path text : string) (output_path : option string)
    (ds : Dataset) (raw : ndarray) (h wd : nat) (mx : Z) :
  fs w !! dicom_path = Some (DicomFile ds) ->
  is_Some (PixelData ds) ->
  pixel_array ds = Some raw ->
  nd_shape raw = [h; wd; 3%nat] ->
  length (nd_data raw) = (h * wd * 3)%nat ->
  arr_max (nd_data raw) = Some mx ->
  mx <= 255 ->
  exists out,
    burn' dicom_path text output_path w =
      (Return true,
       mk_world
         (<[output_of output_path dicom_path :=
              DicomFile (mk_Dataset (Some out) (elements ds))]> (fs w))
         (stdout w ++ [Burned (basename dicom_path)])) /\
    length out = length (nd_data raw) /\
    forall (i : nat) (v : Z),
      nd_data raw !! i = Some v ->
      let pixel := (i / 3)%nat in
      let coverage :=
        coverage_at glyph_mask (chosen_font truetype_loads h) text (10, 10)
                    (Z.of_nat (pixel mod wd)) (Z.of_nat (pixel / wd)) in
      let ink := nth (i mod 3) [255; 0; 0] 0 in
      out !! i = Some (blend coverage (v mod 256) ink) /\
      (coverage = 0 -> out !! i = Some (v mod 256)) /\
      (coverage = 255 -> out !! i = Some ink).
Proof using Type.
  intros Hfile Hpix Hraw Hshape Hlen Hmax Hle.
  set (a := mk_ndarray UInt8 (nd_shape raw)
              (map int_astype_uint8 (nd_data raw))).
  set (img := mk_Image RGB wd h (nd_data a)).
  eexists. split; [|split].
  - apply (burn_accepted_run rnd undefined_cast pixel_array truetype_loads
             glyph_mask w dicom_path text output_path ds raw a RGB img);
      try done.
    + by apply normalize_low with mx.
    + right. subst a. cbn [nd_shape]. by rewrite Hshape.
    + apply fromarray_color; subst a; cbn [nd_shape nd_data];
        [done | by rewrite length_map].
  - unfold draw_text. cbn [im_bytes]. rewrite length_imap.
    subst img a. cbn [im_bytes nd_data]. apply length_map.
  - intros i v Hv pixel coverage ink.
    assert (Hout : im_bytes (draw_text glyph_mask img position text 255
                     (chosen_font truetype_loads (im_height img))) !! i =
                   Some (blend coverage (v mod 256) ink)).
    { unfold draw_text. cbn [im_bytes im_mode im_width im_height img channels].
      rewrite list_lookup_imap. subst a. cbn [nd_data].
      change (map int_astype_uint8 (nd_data raw))
        with (int_astype_uint8 <$> nd_data raw).
      rewrite list_lookup_fmap, Hv. reflexivity. }
    assert (Hink : 0 <= ink <= 255).
    { exact (getink_byte RGB 255 (i mod 3)). }
    split; [exact Hout|]. split; intros Hc; rewrite Hout; f_equal.
    + transitivity (blend 0 (v mod 256) ink); [by f_equal|].
      apply blend_uncovered; [exact truetype_loads|].
      pose proof (Z.mod_pos_bound v 256). lia.
    + transitivity (blend 255 (v mod 256) ink); [by f_equal|].
      by apply blend_covered.
Qed.

End BurnExtras.

(** *** Concrete runs *)

Local Abbreviation sample_env_burn :=
  (burn_text_into_dicom exact cast_zero (decode_shape [12%nat; 20%nat])
     no_truetype square_mask).


Lemma burn_unreadable_witness :
  exists e, sample_env_burn "scans/c.dcm" "PHI" None sample_world =
              (Raise e, sample_world).
Proof.
  apply (burn_unreadable exact cast_zero (decode_shape [12%nat; 20%nat])
           no_truetype square_mask sample_world "scans/c.dcm" "PHI" None).
  intros ds H. vm_compute in H. discriminate.
Defined.

Lemma burn_unsupported_dimensions_witness :
  burn_text_into_dicom exact cast_zero (decode_shape [240%nat])
      no_truetype square_mask "scans/a.dcm" "PHI" None sample_world =
    (Return false,
     mk_world (fs sample_world)
              (stdout sample_world ++
                 [SkipUnsupportedShape "scans/a.dcm" [240%nat]])).
Proof.
  apply (burn_unsupported_dimensions exact cast_zero (decode_shape [240%nat])
           no_truetype square_mask sample_world "scans/a.dcm" "PHI" None
           gray_file (mk_ndarray UInt8 [240%nat] (repeat 7 240))
           (mk_ndarray UInt8 [240%nat] (repeat 7 240))).
  - reflexivity.
  - eexists. reflexivity.
  - reflexivity.
  - vm_compute. reflexivity.
  - cbn. lia.
  - cbn. lia.
Defined.

Definition tiny_image : Image := mk_Image L 2 2 [0; 7; 255; 9].

Lemma draw_text_bytes_witness :
  let out := draw_text square_mask tiny_image (1, 0) "PHI" 255 DefaultFont in
  im_mode out = im_mode tiny_image /\
  im_width out = im_width tiny_image /\
  im_height out = im_height tiny_image /\
  length (im_bytes out) = length (im_bytes tiny_image) /\
  Forall (fun v => 0 <= v <= 255) (im_bytes out).
Proof.
  apply (draw_text_bytes square_mask tiny_image (1, 0) "PHI" 255 DefaultFont).
  repeat constructor; lia.
Defined.

Definition sample_world_burned : world :=
  mk_world
    (<["scans/a.dcm" :=
         DicomFile
           (mk_Dataset
              (Some (im_bytes (draw_text square_mask gray_image position "PHI"
                                         255 (chosen_font no_truetype 12))))
              [])]> (fs sample_world))
    (stdout sample_world ++ [Burned "a.dcm"]).

Lemma burn_success_stores_bytes_witness :
  exists ds bytes,
    fs sample_world !! "scans/a.dcm" = Some (DicomFile ds) /\
    fs sample_world_burned !! output_of None "scans/a.dcm" =
      Some (DicomFile (mk_Dataset (Some bytes) (elements ds))) /\
    Forall (fun v => 0 <= v <= 255) bytes /\
    stdout sample_world_burned =
      stdout sample_world ++ [Burned (basename "scans/a.dcm")].
Proof.
  apply (burn_success_stores_bytes exact cast_zero
           (decode_shape [12%nat; 20%nat]) no_truetype square_mask
           sample_world sample_world_burned "scans/a.dcm" "PHI" None).
  apply (burn_accepted_run exact cast_zero (decode_shape [12%nat; 20%nat])
           no_truetype square_mask sample_world "scans/a.dcm" "PHI" None
           gray_file gray_array gray_array L gray_image).
  - reflexivity.
  - eexists. reflexivity.
  - reflexivity.
  - exact normalize_gray_array.
  - left. split; reflexivity.
  - reflexivity.
Defined.

Definition color_file : Dataset :=
  mk_Dataset (Some [10; 20; 30; 40; 50; 60; 70; 80; 90; 100; 110; 120]) [].
Definition color_array : ndarray :=
  mk_ndarray UInt8 [2%nat; 2%nat; 3%nat]
    [10; 20; 30; 40; 50; 60; 70; 80; 90; 100; 110; 120].
Definition color_world : world :=
  mk_world (<["scans/rgb.dcm" := DicomFile color_file]> ∅) [].

Lemma color_frame_witness :
  exists out,
    burn_text_into_dicom exact cast_zero
        (decode_shape [2%nat; 2%nat; 3%nat]) no_truetype square_mask
        "scans/rgb.dcm" "PHI" None color_world =
      (Return true,
       mk_world
         (<[output_of None "scans/rgb.dcm" :=
              DicomFile (mk_Dataset (Some out) (elements color_file))]>
            (fs color_world))
         (stdout color_world ++ [Burned (basename "scans/rgb.dcm")])) /\
    length out = length (nd_data color_array) /\
    forall (i : nat) (v : Z),
      nd_data color_array !! i = Some v ->
      let pixel := (i / 3)%nat in
      let coverage :=
        coverage_at square_mask (chosen_font no_truetype 2) "PHI" (10, 10)
                    (Z.of_nat (pixel mod 2)) (Z.of_nat (pixel / 2)) in
      let ink := nth (i mod 3) [255; 0; 0] 0 in
      out !! i = Some (blend coverage (v mod 256) ink) /\
      (coverage = 0 -> out !! i = Some (v mod 256)) /\
      (coverage = 255 -> out !! i = Some ink).
Proof.
  apply (color_frame exact cast_zero (decode_shape [2%nat; 2%nat; 3%nat])
           no_truetype square_mask color_world "scans/rgb.dcm" "PHI" None
           color_file color_array 2 2 120).
  - reflexivity.
  - eexists. reflexivity.
  - reflexivity.
  - reflexivity.
  - reflexivity.
  - reflexivity.
  - lia.
Defined.

(** * Further properties of the scripts *)

Section ScriptExtras.
Import Script.

Variable browser : list event -> call -> string + answer.

Lemma run_driver_bind {B} (c : call) (k : answer -> Prog B) (t : list event) :
  (driver browser c ≫= k) t =
    match browser t c with
    | inr a => k a (t ++ [Webdriver c])
    | inl msg => (Abort (Exception msg), t ++ [Webdriver c])
    end.
Proof using Type. unfold driver, mbind, Prog_bind, seq. by destruct (browser t c). Qed.

Lemma run_bind_assoc {A B C} (m : Prog A) (k : A -> Prog B) (k' : B -> Prog C)
    (t : list event) :
  ((m ≫= k) ≫= k') t = (m ≫= (fun a => k a ≫= k')) t.
Proof using Type.
  unfold mbind, Prog_bind, seq. by destruct (m t) as [[a|x] t'].
Qed.

(** X10. The login form shows fewer than three input fields: the headless test
    prints how many it found, saves the error screenshot and calls
    [exit(1)]; it types nothing and clicks nothing, and the [finally] block
    still quits the browser and prints the closing line. *)
Theorem headless_too_few_inputs (inputs : list nat) (a1 a2 a3 : answer) :
  (forall t, browser t Launch = inr a1) ->
  (forall t, browser t (Navigate app_url) = inr a2) ->
  (forall t, browser t (FindElements "input") = inr (Elements inputs)) ->
  (forall t, browser t (SaveScreenshot "/tmp/error_screenshot.png") = inr a3) ->
  (length inputs < 3)%nat ->
  test_viewer_headless browser [] =
    (Abort (SystemExit 1),
     [Print (Text "Testing Cornerstone Viewer (Headless)");
      Webdriver Launch; Acquire Browser;
      Print (Text "[1/5] Loading app and waiting for login form...");
      Webdriver (Navigate app_url); Sleep 2;
      Print (Text "[2/5] Filling in login credentials...");
      Webdriver (FindElements "input");
      Print (ExpectedInputs (length inputs));
      Webdriver (SaveScreenshot "/tmp/error_screenshot.png");
      Release Browser; Print (Text "Test complete.")]).
Proof using Type.
  intros HL HN HF HS Hlen.
  unfold test_viewer_headless, say. rewrite run_emit_bind, launch_then, HL.
  unfold try_finally, headless_body, say, sleep.
  rewrite run_emit_bind, run_driver_bind, HN, run_emit_bind, run_emit_bind.
  unfold find_elements. rewrite run_bind_assoc, run_driver_bind, HF.
  unfold mbind at 1, Prog_bind at 1, seq at 1. cbn [mret Prog_ret pure].
  apply Nat.ltb_lt in Hlen. rewrite Hlen.
  unfold mbind at 1, Prog_bind at 1, seq at 1.
  rewrite run_emit_bind, run_driver_bind, HS.
  reflexivity.
Qed.

Lemma run_index_none {A B} (l : list A) (i : nat) (k : A -> Prog B)
    (t : list event) :
  l !! i = None -> (index l i ≫= k) t = (Abort (Exception "IndexError"), t).
Proof using Type.
  intros H. unfold index, mbind, Prog_bind, seq. by rewrite H.
Qed.

Lemma run_index_some {A B} (l : list A) (i : nat) (a : A) (k : A -> Prog B)
    (t : list event) :
  l !! i = Some a -> (index l i ≫= k) t = k a t.
Proof using Type.
  intros H. unfold index, mbind, Prog_bind, seq. by rewrite H.
Qed.

(** X11. The same page under [test_console_logs.py], which does not check the
    number of fields: with fewer than two of them [inputs[1]] raises
    IndexError before anything is typed; the browser is quit all the
    same. *)
Theorem console_logs_too_few_inputs (inputs : list nat) (a1 a2 : answer) :
  (forall t, browser t Launch = inr a1) ->
  (forall t, browser t (Navigate app_url) = inr a2) ->
  (forall t, browser t (FindElements "input") = inr (Elements inputs)) ->
  (length inputs < 2)%nat ->
  test_console_logs browser [] =
    (Abort (Exception "IndexError"),
     [Webdriver Launch; Acquire Browser;
      Webdriver (Navigate app_url); Sleep 2;
      Webdriver (FindElements "input");
      Release Browser]).
Proof using Type.
  intros HL HN HF Hlen.
  unfold test_console_logs. rewrite launch_then, HL.
  unfold try_finally, sleep.
  rewrite run_driver_bind, HN, run_emit_bind.
  unfold find_elements. rewrite run_bind_assoc, run_driver_bind, HF.
  unfold mbind at 1, Prog_bind at 1, seq at 1. cbn [mret Prog_ret pure].
  rewrite run_index_none by (apply lookup_ge_None_2; lia).
  reflexivity.
Qed.

Definition is_click (e : event) : bool :=
  match e with
  | Webdriver (Click _) => true
  | _ => false
  end.

Definition clicks (t : list event) : nat :=
  length (filter (fun e => is_click e = true) t).

Ltac count_clicks :=
  unfold clicks;
  repeat first [ rewrite filter_cons_True by done
               | rewrite filter_cons_False by done ];
  rewrite ?filter_nil; cbn [length]; lia.

(** X12. The sign-in loop clicks at most one button, whatever the browser
    answers: it stops at the first button whose text contains "Sign in"
    (the [break] of line 39), and an exception ends it. *)
Theorem click_sign_in_once (announce : bool) (buttons : list nat)
    (t : list event) :
  exists t', (click_sign_in browser announce buttons t).2 = t ++ t' /\
             (clicks t' <= 1)%nat.
Proof using Type.
  revert t. induction buttons as [|button rest IH]; intros t.
  - exists []. split; [by rewrite app_nil_r | count_clicks].
  - cbn [click_sign_in]. unfold element_text.
    rewrite run_bind_assoc, run_driver_bind.
    destruct (browser t (ElementText button)) as [msg|a].
    + exists [Webdriver (ElementText button)]. split; [done|]. count_clicks.
    + destruct a as [|els|el|s|entries];
        try (exists [Webdriver (ElementText button)]; split; [done|count_clicks]).
      unfold mbind at 1, Prog_bind at 1, seq at 1. cbn [mret Prog_ret pure].
      destruct (contains "Sign in" s).
      * rewrite run_driver_bind.
        destruct (browser _ (Click button)) as [msg|a].
        -- exists [Webdriver (ElementText button); Webdriver (Click button)].
           rewrite <- app_assoc. split; [done|]. count_clicks.
        -- destruct announce.
           ++ exists [Webdriver (ElementText button); Webdriver (Click button);
                      Print (Text "Clicked Sign in")].
              unfold say, emit. cbn [snd]. rewrite <- !app_assoc.
              split; [done|]. count_clicks.
           ++ exists [Webdriver (ElementText button); Webdriver (Click button)].
              cbn [mret Prog_ret pure snd]. rewrite <- app_assoc.
              split; [done|]. count_clicks.
      * destruct (IH (t ++ [Webdriver (ElementText button)])) as (t' & E & Hc).
        exists (Webdriver (ElementText button) :: t').
        rewrite E, <- app_assoc. split; [done|].
        unfold clicks in *. rewrite filter_cons_False by done. exact Hc.
Qed.

End ScriptExtras.

From Stdlib Require Import Sorted.

Section SortExtras.
Import Script.

Definition fewer_files (a b : scan_info) : Prop := (files a <= files b)%nat.

Lemma insert_by_files_perm (x : scan_info) (l : list scan_info) :
  Permutation (insert_by_files x l) (x :: l).
Proof.
  induction l as [|y r IH]; [done|]. cbn [insert_by_files].
  destruct (files x <? files y)%nat; [done|].
  rewrite IH. apply perm_swap.
Qed.

Lemma insert_by_files_sorted (x : scan_info) (l : list scan_info) :
  StronglySorted fewer_files l -> StronglySorted fewer_files (insert_by_files x l).
Proof.
  induction 1 as [|y r Hs IH Hall]; cbn [insert_by_files].
  - repeat constructor.
  - destruct (files x <? files y)%nat eqn:E.
    + apply Nat.ltb_lt in E. constructor; [by constructor|].
      constructor; [unfold fewer_files; lia|].
      eapply Forall_impl; [exact Hall|]. unfold fewer_files. intros; lia.
    + apply Nat.ltb_ge in E. constructor; [done|].
      rewrite insert_by_files_perm. by constructor.
Qed.

Lemma insert_by_files_stable (x : scan_info) (l : list scan_info) (k : nat) :
  StronglySorted fewer_files l ->
  filter (fun s => files s = k) (insert_by_files x l) =
  filter (fun s => files s = k) l ++ filter (fun s => files s = k) [x].
Proof.
  induction 1 as [|y r Hs IH Hall]; cbn [insert_by_files]; [done|].
  destruct (files x <? files y)%nat eqn:E.
  - apply Nat.ltb_lt in E.
    destruct (decide (files x = k)) as [Hk|Hk].
    + rewrite (filter_cons_True _ x) by done.
      assert (Hnone : filter (fun s => files s = k) (y :: r) = []).
      { apply elem_of_nil_inv. intros s [Hs' Hin]%list_elem_of_filter.
        apply elem_of_cons in Hin as [->|Hin]; [lia|].
        rewrite Forall_forall in Hall. specialize (Hall s Hin).
        unfold fewer_files in Hall. lia. }
      rewrite Hnone. by rewrite filter_cons_True.
    + rewrite !(filter_cons_False _ x) by done. by rewrite filter_nil, app_nil_r.
  - destruct (decide (files y = k)).
    + rewrite !(filter_cons_True _ y) by done. by rewrite IH.
    + rewrite !(filter_cons_False _ y) by done. exact IH.
Qed.

Lemma sort_by_files_snoc (l : list scan_info) (x : scan_info) :
  sort_by_files (l ++ [x]) = insert_by_files x (sort_by_files l).
Proof. unfold sort_by_files. by rewrite foldl_app. Qed.

(** X13. The sort of line 79 behaves as Python's [list.sort(key=...)]: the
    result holds the same scans, in ascending order of their file count,
    and scans with equal counts keep the order in which they were found.
    Its head, the scan printed as RECOMMENDED, has no more files than any
    scan found. *)
Theorem sort_by_files_stable (l : list scan_info) :
  Permutation (sort_by_files l) l /\
  StronglySorted fewer_files (sort_by_files l) /\
  (forall k, filter (fun s => files s = k) (sort_by_files l) =
             filter (fun s => files s = k) l) /\
  match sort_by_files l with
  | smallest :: _ => forall s, s ∈ l -> (files smallest <= files s)%nat
  | [] => l = []
  end.
Proof.
  assert (H : Permutation (sort_by_files l) l /\
              StronglySorted fewer_files (sort_by_files l) /\
              forall k, filter (fun s => files s = k) (sort_by_files l) =
                        filter (fun s => files s = k) l).
  { induction l as [|x l (Hp & Hs & Hst)] using rev_ind.
    - split; [done|]. split; [constructor|done].
    - rewrite sort_by_files_snoc. split; [|split].
      + rewrite insert_by_files_perm, Hp. apply Permutation_cons_append.
      + by apply insert_by_files_sorted.
      + intros k. rewrite insert_by_files_stable by done.
        by rewrite Hst, filter_app. }
  destruct H as (Hp & Hs & Hst). split; [done|]. split; [done|]. split; [done|].
  destruct (sort_by_files l) as [|smallest rest] eqn:E.
  - by apply Permutation_nil.
  - intros s Hin. rewrite <- Hp in Hin.
    apply StronglySorted_inv in Hs as [_ Hall].
    apply elem_of_cons in Hin as [->|Hin]; [lia|].
    rewrite Forall_forall in Hall. apply (Hall s Hin).
Qed.

End SortExtras.

Section FindExtras.
Import Script.

Variable server : list event -> request -> string + response.

(** [m] only appends events satisfying [P], and its result satisfies [Q]. *)
Definition steps {A} (P : event -> Prop) (Q : A -> Prop) (m : Prog A) : Prop :=
  forall t, exists t',
    (m t).2 = t ++ t' /\ Forall P t' /\
    forall a, (m t).1 = Done a -> Q a.

Lemma steps_pure {A} P (Q : A -> Prop) (a : A) : Q a -> steps P Q (mret a).
Proof using Type.
  intros Ha t. exists []. rewrite app_nil_r. split; [done|]. split; [done|].
  by intros a' [= <-].
Qed.

Lemma steps_throw {A} P (Q : A -> Prop) (x : abort) : steps P Q (throw x).
Proof using Type.
  intros t. exists []. rewrite app_nil_r. by split.
Qed.

Lemma steps_emit P (e : event) : P e -> steps P (fun _ => True) (emit e).
Proof using Type. intros He t. exists [e]. by repeat constructor. Qed.

Lemma steps_http P (rq : request) :
  P (Http rq) -> steps P (fun _ => True) (http server rq).
Proof using Type.
  intros He t. exists [Http rq]. unfold http.
  destruct (server t rq); by repeat constructor.
Qed.

Lemma steps_json_result P (r : response) :
  steps P (fun _ => True) (json_result r).
Proof using Type.
  unfold json_result. destruct (result r);
    [by apply (steps_pure P) | apply steps_throw].
Qed.

Lemma steps_bind {A B} P (Q : A -> Prop) (R : B -> Prop)
    (m : Prog A) (k : A -> Prog B) :
  steps P Q m -> (forall a, Q a -> steps P R (k a)) -> steps P R (m ≫= k).
Proof using Type.
  intros Hm Hk t. unfold mbind, Prog_bind, seq.
  destruct (Hm t) as (t1 & E1 & F1 & Q1).
  destruct (m t) as [[a|x] t'] eqn:Em; cbn [fst snd] in E1, Q1; subst t'.
  - destruct (Hk a (Q1 a eq_refl) (t ++ t1)) as (t2 & E2 & F2 & Q2).
    exists (t1 ++ t2). rewrite E2, app_assoc. split; [done|].
    split; [by apply Forall_app|done].
  - exists t1. split; [done|]. by split.
Qed.

(** What the script may do once it has logged in: send GET requests and
    print; a scan it prints has at least one DICOM file. *)
Definition after_login (e : event) : Prop :=
  match e with
  | Http (Get _) => True
  | Print (FoundScan _ info) | Print (Recommended info) => (0 < files info)%nat
  | Print _ => True
  | _ => False
  end.

Definition all_counted (l : list scan_info) : Prop :=
  Forall (fun info => (0 < files info)%nat) l.

Lemma steps_scan_loop proj_id exp_id scans acc :
  all_counted acc ->
  steps after_login all_counted (scan_loop server proj_id exp_id scans acc).
Proof using Type.
  revert acc. induction scans as [|scan rest IH]; intros acc Hacc; simpl.
  - by apply steps_pure.
  - eapply steps_bind; [by apply steps_http|]. intros r _.
    eapply (steps_bind _ all_counted); [|intros acc' Hacc'; by apply IH].
    destruct (_ =? 200)%Z; [|by apply steps_pure].
    eapply steps_bind; [apply steps_json_result|]. intros fl _.
    apply steps_pure.
    destruct (0 <? _)%nat eqn:E; [|done].
    apply Forall_app. split; [done|]. repeat constructor.
    by apply Nat.ltb_lt in E.
Qed.

Lemma steps_experiment_loop proj_id experiments acc :
  all_counted acc ->
  steps after_login all_counted (experiment_loop server proj_id experiments acc).
Proof using Type.
  revert acc. induction experiments as [|exp rest IH]; intros acc Hacc; simpl.
  - by apply steps_pure.
  - eapply steps_bind; [by apply steps_http|]. intros r _.
    eapply (steps_bind _ all_counted); [|intros acc' Hacc'; by apply IH].
    destruct (_ =? 200)%Z; [|by apply steps_pure].
    eapply steps_bind; [apply steps_json_result|]. intros scans _.
    by apply steps_scan_loop.
Qed.

Lemma steps_project_loop projects acc :
  all_counted acc ->
  steps after_login all_counted (project_loop server projects acc).
Proof using Type.
  revert acc. induction projects as [|proj rest IH]; intros acc Hacc; simpl.
  - by apply steps_pure.
  - eapply steps_bind; [by apply steps_http|]. intros r _.
    eapply (steps_bind _ all_counted); [|intros acc' Hacc'; by apply IH].
    destruct (_ =? 200)%Z; [|by apply steps_pure].
    eapply steps_bind; [apply steps_json_result|]. intros exps _.
    by apply steps_experiment_loop.
Qed.

Lemma steps_print_found i l :
  all_counted l -> steps after_login (fun _ => True) (print_found i l).
Proof using Type.
  intros Hl. revert i. induction Hl as [|x l Hx Hl IH]; intros i; simpl.
  - by apply steps_pure.
  - eapply steps_bind; [by apply steps_emit|]. intros _ _. apply IH.
Qed.

Lemma run_http_bind {B} (rq : request) (k : response -> Prog B)
    (t : list event) :
  (http server rq ≫= k) t =
    match server t rq with
    | inr r => k r (t ++ [Http rq])
    | inl msg => (Abort (Exception msg), t ++ [Http rq])
    end.
Proof using Type.
  unfold http, mbind, Prog_bind, seq. by destruct (server t rq).
Qed.

Lemma all_counted_sorted (l : list scan_info) :
  all_counted l -> all_counted (sort_by_files l).
Proof using Type.
  unfold all_counted. intros H.
  destruct (sort_by_files_stable l) as (Hp & _). by rewrite Hp.
Qed.

(** X14. Every run of [find_small_scan.py] begins with the banner, the session
    and the login POST. Whatever the server answers, everything after that
    is a GET request or a printed line (no further POST, no browser, no
    release), and every scan the script prints, in the list or as
    RECOMMENDED, has at least one DICOM file. *)
Theorem find_small_scan_after_login :
  exists t',
    (find_small_scan server []).2 =
      [Print (Text "Finding a smaller scan for testing...");
       Acquire HttpSession; Http (Post login_url)] ++ t' /\
    Forall after_login t'.
Proof using Type.
  unfold find_small_scan, say. rewrite !run_emit_bind, run_http_bind.
  destruct (server _ (Post login_url)) as [msg|response].
  { exists []. by split. }
  match goal with |- exists t', (?rest ?t).2 = _ /\ _ =>
    assert (Hrest : steps after_login (fun _ => True) rest) end.
  { eapply (steps_bind _ (fun _ => True)).
    { destruct (negb _); [|by apply steps_pure].
      eapply steps_bind; [by apply steps_emit|]. intros _ _.
      apply steps_throw. }
    intros _ _. eapply steps_bind; [by apply steps_emit|]. intros _ _.
    eapply steps_bind; [by apply steps_http|]. intros r _.
    eapply steps_bind; [apply steps_json_result|]. intros projects _.
    eapply steps_bind; [by apply steps_emit|]. intros _ _.
    eapply (steps_bind _ all_counted);
      [apply steps_project_loop; constructor|].
    intros found Hfound. apply all_counted_sorted in Hfound.
    eapply steps_bind; [by apply steps_emit|]. intros _ _.
    eapply steps_bind; [apply steps_print_found; by apply Forall_take|].
    intros _ _.
    destruct (sort_by_files found) as [|smallest rest']; [by apply steps_pure|].
    apply steps_emit. by apply Forall_cons_1 in Hfound as [? _]. }
  match goal with |- exists t', (?rest ?t).2 = _ /\ _ =>
    destruct (Hrest t) as (t' & E & Hall & _) end.
  exists t'. split; [|done]. rewrite E. reflexivity.
Qed.

End FindExtras.

Section CleanExtras.
Import Script.

Definition quote_string : string := String quote EmptyString.

Lemma split_on_parts (sep : ascii) (s : string) :
  Forall (fun p => contains (String sep EmptyString) p = false)
         (split_on sep s).
Proof.
  induction s as [|c r IH]; cbn [split_on].
  - by repeat constructor.
  - destruct (Ascii.eqb c sep) eqn:E.
    + constructor; [done|exact IH].
    + destruct (split_on sep r) as [|p ps].
      * constructor; [|constructor]. cbn [contains String.prefix].
        destruct (ascii_dec sep c) as [->|_]; [|done].
        by rewrite Ascii.eqb_refl in E.
      * apply Forall_cons_1 in IH as [Hp Hps]. constructor; [|done].
        cbn [contains String.prefix]. rewrite Hp.
        destruct (ascii_dec sep c) as [->|_]; [|done].
        by rewrite Ascii.eqb_refl in E.
Qed.

Lemma second_last_elem (parts : list string) (p : string) :
  second_last parts = Some p -> p ∈ parts.
Proof.
  unfold second_last. intros H.
  destruct (rev parts) as [|a [|b r]] eqn:E; try done.
  injection H as ->. apply list_elem_of_In, in_rev. rewrite E.
  right. by left.
Qed.


Definition quoted_message : string :=
  "console-api 12:3 " +:+ String quote ("Loaded" +:+ quote_string).


End CleanExtras.

Definition short_form_browser (t : list Script.event) (c : Script.call) :
    string + Script.answer :=
  match c with
  | Script.FindElements _ => inr (Script.Elements [7%nat])
  | _ => inr Script.Unit
  end.

Lemma headless_too_few_inputs_witness :
  Script.test_viewer_headless short_form_browser [] =
    (Script.Abort (Script.SystemExit 1),
     [Script.Print (Script.Text "Testing Cornerstone Viewer (Headless)");
      Script.Webdriver Script.Launch; Script.Acquire Script.Browser;
      Script.Print
        (Script.Text "[1/5] Loading app and waiting for login form...");
      Script.Webdriver (Script.Navigate Script.app_url); Script.Sleep 2;
      Script.Print (Script.Text "[2/5] Filling in login credentials...");
      Script.Webdriver (Script.FindElements "input");
      Script.Print (Script.ExpectedInputs (length [7%nat]));
      Script.Webdriver (Script.SaveScreenshot "/tmp/error_screenshot.png");
      Script.Release Script.Browser;
      Script.Print (Script.Text "Test complete.")]).
Proof.
  apply (headless_too_few_inputs short_form_browser [7%nat]
           Script.Unit Script.Unit Script.Unit);
    try (intros t; reflexivity).
  cbn. lia.
Defined.

Lemma console_logs_too_few_inputs_witness :
  Script.test_console_logs short_form_browser [] =
    (Script.Abort (Script.Exception "IndexError"),
     [Script.Webdriver Script.Launch; Script.Acquire Script.Browser;
      Script.Webdriver (Script.Navigate Script.app_url); Script.Sleep 2;
      Script.Webdriver (Script.FindElements "input");
      Script.Release Script.Browser]).
Proof.
  apply (console_logs_too_few_inputs short_form_browser [7%nat]
           Script.Unit Script.Unit);
    try (intros t; reflexivity).
  cbn. lia.
Defined.
